(** * Currency exchange backend (app.ts): cache refresh, conversion, history

    A shallow embedding of the request handlers of [src/app.ts]:
    - [JS]: the parts of the JavaScript runtime the handlers rely on
      (binary64 numbers, [parseFloat], [isNaN]);
    - [Server]: the cache ([currencyCache]), [updateCache], the conversion
      handlers and the history handlers, written in a small state and error
      monad over the process-wide state, each handler running to its end;
    - [Async]: the same [updateCache] cut at its [await], as a step function
      over interleaved callers;
    - [Scenario]: sequences of requests and sample data;
    - [Traffic]: the seven routes and sequences of requests to them;
    - [Interleaving]: the shape of the heap of cache objects.

    The facts follow: on binary64 arithmetic ([Binary64]), on property
    reads ([ObjectFacts]), on [parseFloat] ([ParseFacts]), on the refresh of
    the cache ([CacheFacts]), on single and bulk conversion ([ConvertFacts],
    [BulkFacts]), on the history ([HistoryFacts]), on interleaved refreshes
    ([AsyncFacts]) and on the shape of the snapshot ([Invariants]); then on
    the routes under any traffic ([TrafficFacts]), on the cache over several
    requests ([CacheTraffic]), on conversions compared with one another
    ([ConversionFacts]) and on what every interleaving keeps
    ([InterleavingFacts]).

    JavaScript numbers are IEEE 754 binary64 values: they are modelled by
    Rocq's primitive floats, whose operations are the machine's.  Objects used
    as dictionaries are finite maps over their own properties, read through
    [Server.read], which falls back on the properties every plain object
    inherits from [Object.prototype].  Strings are UTF-8. *)

From Stdlib Require Import ZArith Floats String Ascii List Lia.
From stdpp Require Import gmap strings list sorting.

Local Open Scope Z_scope.

(* ===================================================================== *)
(** ** The JavaScript runtime used by the handlers *)
(* ===================================================================== *)

Module JS.

(** A Number is a binary64 float. *)
Abbreviation number := PrimFloat.float.

(** [isNaN(x)] on a Number. *)
Definition isNaN (x : number) : bool := PrimFloat.is_nan x.

(** *** [parseFloat] on a string

    ECMAScript: trim leading white space, take the longest prefix that is a
    [StrDecimalLiteral], return its numeric value rounded to the nearest
    binary64 (ties to even), or NaN when there is no such prefix.  A string
    is the UTF-8 encoding of the JavaScript string, as it arrives in the
    request; the characters of a [StrDecimalLiteral] are single bytes, the
    white space of [StrWhiteSpaceChar] takes one to three bytes. *)

(** TAB, LF, VT, FF, CR and SP. *)
Definition is_white_space (a : ascii) : bool :=
  let n := N_of_ascii a in
  ((9 <=? n) && (n <=? 13) || (n =? 32))%N.

(** U+00A0 (no-break space) is [C2 A0]. *)
Definition is_white_space2 (a b : ascii) : bool :=
  ((N_of_ascii a =? 194) && (N_of_ascii b =? 160))%N.

(** U+1680 is [E1 9A 80]; U+2000 to U+200A are [E2 80 80] to [E2 80 8A];
    the line terminators U+2028 and U+2029 are [E2 80 A8] and [E2 80 A9];
    U+202F is [E2 80 AF]; U+205F is [E2 81 9F]; U+3000 is [E3 80 80]; the
    byte order mark U+FEFF is [EF BB BF]. *)
Definition is_white_space3 (a b c : ascii) : bool :=
  let x := N_of_ascii a in
  let y := N_of_ascii b in
  let z := N_of_ascii c in
  ((x =? 225) && (y =? 154) && (z =? 128)
   || (x =? 226) && (y =? 128)
      && ((128 <=? z) && (z <=? 138) || (z =? 168) || (z =? 169) || (z =? 175))
   || (x =? 226) && (y =? 129) && (z =? 159)
   || (x =? 227) && (y =? 128) && (z =? 128)
   || (x =? 239) && (y =? 187) && (z =? 191))%N.

(** The string of the given bytes. *)
Definition bytes (l : list N) : string :=
  string_of_list_ascii (map ascii_of_N l).

(** [StrWhiteSpaceChar], character by character: the white space, the line
    terminators and the space separators of Unicode. *)
Definition white_space : list string :=
  bytes <$> [ [9]; [10]; [11]; [12]; [13]; [32]; [194; 160]; [225; 154; 128];
              [226; 128; 128]; [226; 128; 129]; [226; 128; 130];
              [226; 128; 131]; [226; 128; 132]; [226; 128; 133];
              [226; 128; 134]; [226; 128; 135]; [226; 128; 136];
              [226; 128; 137]; [226; 128; 138]; [226; 128; 168];
              [226; 128; 169]; [226; 128; 175]; [226; 129; 159];
              [227; 128; 128]; [239; 187; 191] ]%N.

Fixpoint trim_start (s : string) : string :=
  match s with
  | String a r =>
      if is_white_space a then trim_start r
      else
        match r with
        | String b r2 =>
            if is_white_space2 a b then trim_start r2
            else
              match r2 with
              | String c r3 =>
                  if is_white_space3 a b c then trim_start r3 else s
              | EmptyString => s
              end
        | EmptyString => s
        end
  | EmptyString => s
  end.

Definition digit_of (a : ascii) : option Z :=
  let n := N_of_ascii a in
  if ((48 <=? n) && (n <=? 57))%N then Some (Z.of_N n - 48) else None.

(** Longest run of decimal digits at the head of [s], and what follows. *)
Fixpoint take_digits (s : string) : list Z * string :=
  match s with
  | String a r =>
      match digit_of a with
      | Some d => let '(ds, rest) := take_digits r in (d :: ds, rest)
      | None => ([], s)
      end
  | EmptyString => ([], s)
  end.

(** The value of a digit sequence, most significant digit first. *)
Definition digits_value (ds : list Z) : Z :=
  fold_left (fun acc d => 10 * acc + d) ds 0.

(** [ExponentPart]: [e] or [E], an optional sign, at least one digit.  When
    the digits are missing the exponent is not part of the prefix. *)
Definition exponent_part (s : string) : Z :=
  match s with
  | String c r =>
      if (Ascii.eqb c "e" || Ascii.eqb c "E")%bool then
        match r with
        | String "+" r' =>
            let '(ds, _) := take_digits r' in digits_value ds
        | String "-" r' =>
            let '(ds, _) := take_digits r' in - digits_value ds
        | _ => let '(ds, _) := take_digits r in digits_value ds
        end
      else 0
  | EmptyString => 0
  end.

(** A parsed [StrUnsignedDecimalLiteral]: [Infinity], or the decimal
    [m * 10^e]. *)
Variant literal := LitInfinity | LitDecimal (m : Z) (e : Z).

Definition unsigned_literal (s : string) : option literal :=
  if String.prefix "Infinity" s then Some LitInfinity
  else
    let '(ip, r1) := take_digits s in
    let '(fp, r2) :=
      match r1 with
      | String "." r => take_digits r
      | _ => ([], r1)
      end in
    match ip ++ fp with
    | [] => None
    | ds => Some (LitDecimal (digits_value ds)
                    (exponent_part r2 - Z.of_nat (length fp)))
    end.

(** The binary64 nearest to [m * 10^e], for [m > 0]: an integer is rounded by
    [binary_normalize]; a quotient [m / 10^k] is brought to a mantissa, an
    exponent and the position of the remainder by the division core of the
    float specification, and rounded from there. *)
Definition round_decimal (m : positive) (e : Z) : spec_float :=
  match e with
  | Zneg k =>
      let '(q, e', l) :=
        SFdiv_core_binary prec emax (Zpos m) 0 (Zpos (10 ^ k)) 0 in
      binary_round_aux prec emax false q e' l
  | _ => binary_normalize prec emax (Zpos m * 10 ^ e) 0 false
  end.

Definition literal_value (l : literal) : number :=
  match l with
  | LitInfinity => PrimFloat.infinity
  | LitDecimal (Zpos m) e => SF2Prim (round_decimal m e)
  | LitDecimal _ _ => PrimFloat.zero
  end.

Definition parseFloat (s : string) : number :=
  let t := trim_start s in
  let signed (neg : bool) (r : string) :=
    match unsigned_literal r with
    | Some l => if neg then (- literal_value l)%float else literal_value l
    | None => PrimFloat.nan
    end in
  match t with
  | String "-" r => signed true r
  | String "+" r => signed false r
  | _ => signed false t
  end.

End JS.

(* ===================================================================== *)
(** ** The server: state, cache refresh and request handlers *)
(* ===================================================================== *)

Module Server.
Import JS.

(** *** Data *)

(** The metadata the provider returns for a currency code.  It is an object,
    hence truthy. *)
Record currency_meta := {
  name : string;
  symbol : string;
  decimal_digits : Z;
}.

Abbreviation currency_list := (gmap string currency_meta).
Abbreviation rate_table := (gmap string number).

(** [interface CurrencyCache]; [None] is [null]. *)
Record CurrencyCache := {
  currencies : option currency_list;
  rates : option rate_table;
  baseCurrency : option string;
  lastUpdated : option Z;
}.

(** [let currencyCache = { currencies: null, ... }] *)
Definition empty_cache : CurrencyCache :=
  {| currencies := None; rates := None;
     baseCurrency := None; lastUpdated := None |}.

(** [const CACHE_EXPIRATION = 5 * 60 * 1000] *)
Definition CACHE_EXPIRATION : Z := 5 * 60 * 1000.

(** [interface ConversionRecord]: what the client posts ([conversion]) and
    the record stored, [{ ...conversion, timestamp: new Date() }]. *)
Record Conversion := {
  userId : option string;
  fromCurrency : string;
  toCurrency : string;
  amount : number;
  result : number;
  rate : number;
}.

Record ConversionRecord := {
  conversion : Conversion;
  timestamp : Z;
}.

Abbreviation history_store := (gmap string (list ConversionRecord)).

(** Requests sent to the provider. *)
Variant fetch :=
  | FetchCurrencies
  | FetchRates (base : string).

(** The errors thrown in the handlers, and their [message]. *)
Variant error :=
  | FailedCurrencyList
  | FailedExchangeRates
  | AmountMustBeNumber
  | InvalidCurrencyCode
  | InvalidRequestFormat
  | InvalidSourceCurrency (from : string)
  | TypeError
  | NotAFunction
  | NotPrimitive.

Definition quoted (s : string) : string :=
  let q := String (ascii_of_nat 34) EmptyString in q +:+ s +:+ q.

Definition message (e : error) : string :=
  match e with
  | FailedCurrencyList => "Failed to fetch currency list"
  | FailedExchangeRates => "Failed to fetch exchange rates"
  | AmountMustBeNumber => "Amount must be a number"
  | InvalidCurrencyCode => "Invalid currency code"
  | InvalidRequestFormat =>
      "Invalid request format. Expected { from: " +:+ quoted "CUR"
      +:+ ", amounts: { " +:+ quoted "CUR" +:+ ": amount } }"
  | InvalidSourceCurrency from => "Invalid source currency: " +:+ from
  | TypeError => "Cannot read properties of null"
  | NotAFunction => "conversionHistoryStore[userId].unshift is not a function"
  | NotPrimitive => "Cannot convert object to primitive value"
  end.

(** Errors of the provider, and errors about the client's input. *)
Definition is_upstream_error (e : error) : bool :=
  match e with
  | FailedCurrencyList | FailedExchangeRates => true
  | _ => false
  end.

Definition is_validation_error (e : error) : bool :=
  match e with
  | AmountMustBeNumber | InvalidCurrencyCode
  | InvalidRequestFormat | InvalidSourceCurrency _ => true
  | _ => false
  end.

(** *** The process state and its environment *)

(** The mutable state of the process: the cache, the history store, and (a
    ghost field) the requests sent to the provider so far, oldest first. *)
Record state := {
  currencyCache : CurrencyCache;
  conversionHistoryStore : history_store;
  requests : list fetch;
}.

Definition initial_state : state :=
  {| currencyCache := empty_cache;
     conversionHistoryStore := ∅;
     requests := [] |}.

(** What the provider answers while one handler runs: [None] when the
    request fails.  When both requests of a [Promise.all] fail, the one that
    settles first decides the error. *)
Record provider := {
  currency_response : option currency_list;
  rates_response : string -> option rate_table;
  currencies_settle_first : bool;
}.

Record env := {
  upstream : provider;
  now : Z;
}.

(** Computations that read the environment, update the state, and return a
    value or throw. *)
Definition M (A : Type) : Type := env -> state -> (error + A) * state.

Definition ret {A} (a : A) : M A := fun _ s => (inr a, s).
Definition throw {A} (e : error) : M A := fun _ s => (inl e, s).
Definition bind {A B} (k : A -> M B) (m : M A) : M B :=
  fun e s =>
    match m e s with
    | (inr a, s') => k a e s'
    | (inl err, s') => (inl err, s')
    end.

#[global] Instance M_ret : MRet M := @ret.
#[global] Instance M_bind : MBind M := @bind.

Definition Date_now : M Z := fun e s => (inr (now e), s).
Definition get_cache : M CurrencyCache := fun _ s => (inr (currencyCache s), s).
Definition set_cache (c : CurrencyCache) : M unit :=
  fun _ s =>
    (inr tt, {| currencyCache := c;
                conversionHistoryStore := conversionHistoryStore s;
                requests := requests s |}).
Definition get_store : M history_store :=
  fun _ s => (inr (conversionHistoryStore s), s).
Definition set_store (h : history_store) : M unit :=
  fun _ s =>
    (inr tt, {| currencyCache := currencyCache s;
                conversionHistoryStore := h;
                requests := requests s |}).
Definition send (f : fetch) : M unit :=
  fun _ s =>
    (inr tt, {| currencyCache := currencyCache s;
                conversionHistoryStore := conversionHistoryStore s;
                requests := requests s ++ [f] |}).

(** *** The provider client *)

(** The provider's answer to a request: the [data] of the response, or the
    error the client throws in its place. *)
Definition answer {A} (response : provider -> option A) (err : error) : M A :=
  fun e s =>
    match response (upstream e) with
    | Some data => (inr data, s)
    | None => (inl err, s)
    end.

(** [fetchAllCurrencies()] *)
Definition fetchAllCurrencies : M currency_list :=
  send FetchCurrencies;;
  answer currency_response FailedCurrencyList.

(** [fetchAllRates(baseCurrency)] *)
Definition fetchAllRates (base : string) : M rate_table :=
  send (FetchRates base);;
  answer (fun p => rates_response p base) FailedExchangeRates.

(** [Promise.all([a, b])]: both computations are started; the result is the
    pair of their values, or the rejection that settles first. *)
Definition Promise_all {A B} (a : M A) (b : M B) : M (A * B) :=
  fun e s =>
    let '(ra, s1) := a e s in
    let '(rb, s2) := b e s1 in
    match ra, rb with
    | inr x, inr y => (inr (x, y), s2)
    | inl ea, inr _ => (inl ea, s2)
    | inr _, inl eb => (inl eb, s2)
    | inl ea, inl eb =>
        (inl (if currencies_settle_first (upstream e) then ea else eb), s2)
    end.

(** *** [updateCache] *)

(** [!currencyCache.lastUpdated]: [null] and [0] are falsy. *)
Definition falsy_time (t : option Z) : bool :=
  match t with
  | Some t => t =? 0
  | None => true
  end.

(** The first condition of [updateCache]:
    [!currencies || !lastUpdated || (now - lastUpdated) > CACHE_EXPIRATION]. *)
Definition stale (t : Z) (c : CurrencyCache) : bool :=
  negb (bool_decide (is_Some (currencies c)))
  || falsy_time (lastUpdated c)
  || match lastUpdated c with
     | Some u => CACHE_EXPIRATION <? t - u
     | None => false
     end.

(** [updateCache(baseCurrency)], run from its start to its end.  The first
    branch assigns a new object to [currencyCache]; the second assigns the
    fields [rates], [baseCurrency] and [lastUpdated] of the cache; a failed
    request throws before any assignment. *)
Definition updateCache (base : string) : M unit :=
  t ← Date_now;
  c ← get_cache;
  if stale t c then
    '(cur, rs) ← Promise_all fetchAllCurrencies (fetchAllRates base);
    set_cache {| currencies := Some cur; rates := Some rs;
                 lastUpdated := Some t; baseCurrency := Some base |}
  else if negb (bool_decide (baseCurrency c = Some base)) then
    rs ← fetchAllRates base;
    set_cache {| currencies := currencies c; rates := Some rs;
                 baseCurrency := Some base; lastUpdated := Some t |}
  else mret tt.

(** *** Responses *)

(** An entry of the [results] of a bulk conversion: a conversion, or
    [{ error: message }]. *)
Variant bulk_entry :=
  | Converted (amount rate result : number)
  | EntryError (e : error).

(** The JSON bodies the handlers send; [ErrorBody e] is
    [{ success: false, error: message e }], the others have
    [success: true].  [InheritedHistoryBody key] is
    [{ success: true, history: Object.prototype[key] }]. *)
Variant body :=
  | CurrenciesBody (currencies : option currency_list)
  | RatesBody (base : option string) (rates : option rate_table)
  | ConversionBody (from to : string) (amount rate result : number)
  | BulkBody (from : string) (results : gmap string bulk_entry)
  | OkBody
  | HistoryBody (history : list ConversionRecord)
  | InheritedHistoryBody (key : string)
  | ErrorBody (e : error).

Record response := {
  status : Z;
  payload : body;
}.

(** [try { ...; res.json(body) } catch (error) { res.status(code).json(...) }] *)
Definition respond (code : Z) (m : M body) (e : env) (s : state)
  : response * state :=
  match m e s with
  | (inr b, s') => ({| status := 200; payload := b |}, s')
  | (inl err, s') => ({| status := code; payload := ErrorBody err |}, s')
  end.

(** *** Property reads

    The currency list, the rate table, the history store and the [results]
    of a bulk conversion are plain objects: a [gmap] holds their own
    properties, and every one of them inherits the properties of
    [Object.prototype]. *)

(** The property names of [Object.prototype]. *)
Definition object_prototype_names : list string :=
  ["constructor"; "__defineGetter__"; "__defineSetter__"; "hasOwnProperty";
   "__lookupGetter__"; "__lookupSetter__"; "isPrototypeOf";
   "propertyIsEnumerable"; "toString"; "valueOf"; "__proto__";
   "toLocaleString"].

Definition inherited (key : string) : bool :=
  bool_decide (key ∈ object_prototype_names).

(** What [object[key]] evaluates to: the own property, else the property of
    [Object.prototype] (a function, or [Object.prototype] itself for
    [__proto__]), else [undefined]. *)
Variant property (V : Type) :=
  | Own (v : V)
  | Inherited
  | Undefined.
Arguments Own {V} v.
Arguments Inherited {V}.
Arguments Undefined {V}.

Definition read {V} (object : gmap string V) (key : string) : property V :=
  match object !! key with
  | Some v => Own v
  | None => if inherited key then Inherited else Undefined
  end.

(** The own property, if the read found one. *)
Definition own {V} (p : property V) : option V :=
  match p with
  | Own v => Some v
  | Inherited | Undefined => None
  end.

(** Truthiness of a property of the currency list or of the history store:
    their own properties are objects and arrays, the inherited ones are
    functions and an object; only [undefined] is falsy. *)
Definition truthy {V} (p : property V) : bool :=
  match p with
  | Own _ | Inherited => true
  | Undefined => false
  end.

(** [table[key]]; reading a property of [null] throws. *)
Definition prop {V} (table : option (gmap string V)) (key : string)
  : M (property V) :=
  match table with
  | Some t => mret (read t key)
  | None => throw TypeError
  end.

(** [object[key] = value] for a [value] that is an object: the key
    [__proto__] runs the setter of [Object.prototype], which replaces the
    prototype of [object] and adds no property; any other key becomes an own
    property. *)
Definition assign {V} (key : string) (value : V) (object : gmap string V)
  : gmap string V :=
  if bool_decide (key = "__proto__") then object else <[key := value]> object.

(** [ToNumber] on a rate read from a table: [undefined] becomes NaN. *)
Definition to_number (v : option number) : number := default PrimFloat.nan v.

(** [ToNumber] on [usdRates[code]]: an own rate is a Number; [undefined], a
    function and [Object.prototype] convert to NaN. *)
Definition rate_of (p : property number) : number := to_number (own p).

(** [code === 'USD' ? 1 : f(usdRates[code])] *)
Definition through_usd (f : number -> number) (usdRates : option rate_table)
  (code : string) : M number :=
  if bool_decide (code = "USD") then mret 1%float
  else r ← prop usdRates code; mret (f (rate_of r)).

(** *** [GET /api/currencies] and [GET /api/rates] *)

Definition get_currencies : env -> state -> response * state :=
  respond 500
    (updateCache "USD";;
     c ← get_cache;
     mret (CurrenciesBody (currencies c))).

Definition get_rates (base : option string) : env -> state -> response * state :=
  respond 500
    (updateCache (default "USD" base);;
     c ← get_cache;
     mret (RatesBody (baseCurrency c) (rates c))).

(** *** [GET /api/convert/:from/:to/:amount] *)

Definition convert (from to amount : string) : env -> state -> response * state :=
  respond 400
    (let numericAmount := parseFloat amount in
     if isNaN numericAmount then throw AmountMustBeNumber
     else
       updateCache "USD";;
       c ← get_cache;
       let usdRates := rates c in
       known_from ← prop (currencies c) from;
       known_to ← prop (currencies c) to;
       if negb (truthy known_from) || negb (truthy known_to)
       then throw InvalidCurrencyCode
       else
         fromToUsd ← through_usd (fun r => 1 / r)%float usdRates from;
         usdToTo ← through_usd (fun r => r) usdRates to;
         let rate := (fromToUsd * usdToTo)%float in
         let result := (numericAmount * rate)%float in
         mret (ConversionBody from to numericAmount rate result)).

(** *** [POST /api/convert/bulk] *)

(** The values an amount can take in the JSON body. *)
#[warnings="-register-all"]
Inductive json_value :=
  | JNumber (x : number)
  | JString (s : string)
  | JBool (b : bool)
  | JNull
  | JObject (fields : list (string * json_value))
  | JArray (items : list json_value).

(** [String(value)] throws.  An object prints through the [toString] it
    inherits, as ["[object Object]"]; when it has a property [toString] of
    its own, which in a JSON body is never a function, neither [toString]
    nor [valueOf] yields a primitive, and the conversion throws a TypeError.
    An array prints its items, so it throws when one of them does. *)
Fixpoint unprintable (v : json_value) : bool :=
  match v with
  | JObject fields => bool_decide ("toString" ∈ fields.*1)
  | JArray items => existsb unprintable items
  | JNumber _ | JString _ | JBool _ | JNull => false
  end.

(** [parseFloat] of the string a printable value converts to.  A Number
    prints to a string that reads back as itself, except that [-0] prints as
    ["0"]; [true], [false], [null] and an object print to strings with no
    numeric prefix.  An array prints its items separated by commas, [null]
    as the empty string: the empty array prints as the empty string, and of
    any other array [parseFloat] reads no further than the first item, since
    a comma is neither white space nor part of a numeric literal. *)
Fixpoint parseFloat_value (v : json_value) : number :=
  match v with
  | JString s => parseFloat s
  | JNumber x => if PrimFloat.is_zero x then PrimFloat.zero else x
  | JBool _ | JNull | JObject _ => PrimFloat.nan
  | JArray [] => PrimFloat.nan
  | JArray (first :: _) => parseFloat_value first
  end.

(** [parseFloat(amount as any)]: the argument is first converted to a
    string. *)
Definition parseFloat_any (v : json_value) : M number :=
  if unprintable v then throw NotPrimitive else mret (parseFloat_value v).

Record bulk_request := {
  from : option string;
  amounts : option (list (string * json_value));
}.

(** The body of the [for (const [currency, amount] of Object.entries(amounts))]
    loop, over the entries left, with [results] as built so far. *)
Fixpoint bulk_loop (c : CurrencyCache) (fromToUsd : number)
  (entries : list (string * json_value)) (results : gmap string bulk_entry)
  : M (gmap string bulk_entry) :=
  match entries with
  | [] => mret results
  | (currency, amount) :: rest =>
      known ← prop (currencies c) currency;
      if negb (truthy known) then
        bulk_loop c fromToUsd rest
          (assign currency (EntryError InvalidCurrencyCode) results)
      else
        numericAmount ← parseFloat_any amount;
        if isNaN numericAmount then
          bulk_loop c fromToUsd rest
            (assign currency (EntryError AmountMustBeNumber) results)
        else
          usdToCurrency ← through_usd (fun r => r) (rates c) currency;
          let rate := (fromToUsd * usdToCurrency)%float in
          let result := (numericAmount * rate)%float in
          bulk_loop c fromToUsd rest
            (assign currency (Converted numericAmount rate result) results)
  end.

Definition convert_bulk (req : bulk_request) : env -> state -> response * state :=
  respond 400
    (match from req, amounts req with
     | Some source, Some entries =>
         if bool_decide (source = "") then throw InvalidRequestFormat
         else
           updateCache "USD";;
           c ← get_cache;
           let usdRates := rates c in
           known ← prop (currencies c) source;
           if negb (truthy known)
           then throw (InvalidSourceCurrency source)
           else
             fromToUsd ← through_usd (fun r => 1 / r)%float usdRates source;
             results ← bulk_loop c fromToUsd entries ∅;
             mret (BulkBody source results)
     | _, _ => throw InvalidRequestFormat
     end).

(** *** [/api/history] *)

(** [POST]: an empty list is stored first when
    [conversionHistoryStore[userId]] is falsy; then [unshift] the record and
    keep [slice(0, 20)].  An inherited property has no [unshift]: the call
    throws before anything is stored. *)
Definition post_history (user : option string) (conv : Conversion)
  : env -> state -> response * state :=
  respond 500
    (let uid := default "anonymous" user in
     h ← get_store;
     let h1 := if truthy (read h uid) then h else <[uid := []]> h in
     t ← Date_now;
     let record := {| conversion := conv; timestamp := t |} in
     match read h1 uid with
     | Own records =>
         let unshifted := record :: records in
         set_store (<[uid := take 20 unshifted]> h1);;
         mret OkBody
     | Inherited => throw NotAFunction
     | Undefined => throw TypeError
     end).

(** [GET]: [conversionHistoryStore[userId] || []]; a list and an inherited
    property are truthy. *)
Definition get_history (user : option string) : env -> state -> response * state :=
  respond 500
    (let uid := default "anonymous" user in
     h ← get_store;
     mret (match read h uid with
           | Own records => HistoryBody records
           | Inherited => InheritedHistoryBody uid
           | Undefined => HistoryBody []
           end)).

(** [DELETE]: [delete conversionHistoryStore[userId]] *)
Definition delete_history (user : option string) : env -> state -> response * state :=
  respond 500
    (let uid := default "anonymous" user in
     h ← get_store;
     set_store (delete uid h);;
     mret OkBody).

(** *** Vocabulary of the statements *)

(** No snapshot: the currency list or the timestamp is falsy ([0] is falsy
    as [null] is). *)
Definition no_snapshot (c : CurrencyCache) : Prop :=
  currencies c = None ∨ lastUpdated c = None ∨ lastUpdated c = Some 0.

(** The snapshot is older than the expiration window at time [t]. *)
Definition expired (t : Z) (c : CurrencyCache) : Prop :=
  ∃ u, lastUpdated c = Some u ∧ t - u > CACHE_EXPIRATION.

Definition fresh (t : Z) (c : CurrencyCache) : Prop :=
  ¬ no_snapshot c ∧ ¬ expired t c.

(** A snapshot is entirely absent or fully populated. *)
Definition whole (c : CurrencyCache) : Prop :=
  c = empty_cache
  ∨ ∃ cur rs b u, c = {| currencies := Some cur; rates := Some rs;
                         baseCurrency := Some b; lastUpdated := Some u |}.

(** The requests sent to the provider between two states. *)
Definition sent_by (s s' : state) : list fetch :=
  drop (length (requests s)) (requests s').

(** The provider fails the request [f]. *)
Definition fetch_fails (p : provider) (f : fetch) : Prop :=
  match f with
  | FetchCurrencies => currency_response p = None
  | FetchRates b => rates_response p b = None
  end.

(** [code] is a key of the currency list of the cache. *)
Definition valid_code (c : CurrencyCache) (code : string) : Prop :=
  ∃ cur, currencies c = Some cur ∧ is_Some (cur !! code).

(** [key] is a name that no plain object inherits. *)
Definition ordinary (key : string) : Prop := inherited key = false.

(** [code] passes the validity test of the conversions:
    [currencyCache.currencies[code]] is truthy. *)
Definition listed (c : CurrencyCache) (code : string) : Prop :=
  ∃ cur, currencies c = Some cur ∧ truthy (read cur code) = true.

(** A computation that leaves the state as it is. *)
Definition read_only {A} (m : M A) : Prop := ∀ e s, (m e s).2 = s.

(** Every amount of the entries converts to a string. *)
Definition printable (entries : list (string * json_value)) : Prop :=
  Forall (fun kv => unprintable kv.2 = false) entries.

(** What one turn of the bulk loop writes at key [k] for the amount [v],
    when neither table is [null] and the amount converts to a string. *)
Definition entry_for (cur : currency_list) (rs : rate_table)
  (fromToUsd : number) (k : string) (v : json_value) : bulk_entry :=
  if negb (truthy (read cur k)) then EntryError InvalidCurrencyCode
  else if isNaN (parseFloat_value v) then EntryError AmountMustBeNumber
  else
    let usdTo :=
      if bool_decide (k = "USD") then 1%float else to_number (rs !! k) in
    Converted (parseFloat_value v) (fromToUsd * usdTo)
      (parseFloat_value v * (fromToUsd * usdTo)).

End Server.

(* ===================================================================== *)
(** ** [updateCache] under interleaving *)
(* ===================================================================== *)

(** Handlers run one at a time but are suspended at each [await]: a call of
    [updateCache] runs from its start to its [await], and from the settling
    of the awaited requests to its end; other calls may run in between.
    The variable [currencyCache] refers to an object: the first branch binds
    it to a new object, the second branch writes fields of existing
    objects. *)

Module Async.
Import Server.

(** A call suspended at its [await], with its [baseCurrency] and its [now].
    In [currencyCache.rates = await fetchAllRates(baseCurrency)] the object
    to assign to is taken from the variable before the right-hand side is
    evaluated: [target] is that object. *)
Variant pending :=
  | AwaitAll (base : string) (t : Z)
  | AwaitRates (base : string) (t : Z) (target : nat).

Record world := {
  heap : list CurrencyCache;
  binding : nat;
  in_flight : list pending;
  sent : list fetch;
}.

Definition initial : world :=
  {| heap := [empty_cache]; binding := 0; in_flight := []; sent := [] |}.

(** The object [currencyCache] refers to. *)
Definition snapshot (w : world) : CurrencyCache :=
  default empty_cache (heap w !! binding w).

Variant event :=
  | Call (base : string) (t : Z)
  | Settle (i : nat) (cur : option currency_list) (rs : option rate_table).

(** [updateCache(base)] called at time [t], up to its [await] (or to its end
    when nothing is fetched). *)
Definition call (base : string) (t : Z) (w : world) : world :=
  let c := snapshot w in
  if stale t c then
    {| heap := heap w; binding := binding w;
       in_flight := in_flight w ++ [AwaitAll base t];
       sent := sent w ++ [FetchCurrencies; FetchRates base] |}
  else if negb (bool_decide (baseCurrency c = Some base)) then
    {| heap := heap w; binding := binding w;
       in_flight := in_flight w ++ [AwaitRates base t (binding w)];
       sent := sent w ++ [FetchRates base] |}
  else w.

Definition set_rates (rs : rate_table) (c : CurrencyCache) : CurrencyCache :=
  {| currencies := currencies c; rates := Some rs;
     baseCurrency := baseCurrency c; lastUpdated := lastUpdated c |}.

Definition set_base_and_time (base : string) (t : Z) (c : CurrencyCache)
  : CurrencyCache :=
  {| currencies := currencies c; rates := rates c;
     baseCurrency := Some base; lastUpdated := Some t |}.

(** The requests of the [i]-th suspended call settle, with the answers [cur]
    and [rs] ([None]: failure), and the call runs to its end.  [None] when
    there is no such call. *)
Definition settle (i : nat) (cur : option currency_list)
  (rs : option rate_table) (w : world) : option world :=
  match in_flight w !! i with
  | None => None
  | Some (AwaitAll base t) =>
      match cur, rs with
      | Some cur, Some rs =>
          Some {| heap := heap w ++ [ {| currencies := Some cur;
                                         rates := Some rs;
                                         lastUpdated := Some t;
                                         baseCurrency := Some base |} ];
                  binding := length (heap w);
                  in_flight := delete i (in_flight w);
                  sent := sent w |}
      | _, _ =>
          Some {| heap := heap w; binding := binding w;
                  in_flight := delete i (in_flight w); sent := sent w |}
      end
  | Some (AwaitRates base t target) =>
      match rs with
      | Some rs =>
          Some {| heap := alter (set_base_and_time base t) (binding w)
                            (alter (set_rates rs) target (heap w));
                  binding := binding w;
                  in_flight := delete i (in_flight w);
                  sent := sent w |}
      | None =>
          Some {| heap := heap w; binding := binding w;
                  in_flight := delete i (in_flight w); sent := sent w |}
      end
  end.

Definition step (ev : event) (w : world) : option world :=
  match ev with
  | Call base t => Some (call base t w)
  | Settle i cur rs => settle i cur rs w
  end.

Fixpoint run (evs : list event) (w : world) : option world :=
  match evs with
  | [] => Some w
  | ev :: rest =>
      match step ev w with
      | Some w' => run rest w'
      | None => None
      end
  end.

(** At most one refresh in flight. *)
Definition single_flight (w : world) : Prop := (length (in_flight w) ≤ 1)%nat.

(** Nothing is in flight, and the cache and the requests sent are those of
    the state [s] of the sequential model. *)
Definition quiescent (s : state) (w : world) : Prop :=
  snapshot w = currencyCache s
  ∧ in_flight w = []
  ∧ sent w = requests s
  ∧ (binding w < length (heap w))%nat.

(** Calls made one after the other with none of them settled. *)
Definition calls (cs : list (string * Z)) (w : world) : world :=
  foldl (fun w c => call c.1 c.2 w) w cs.

End Async.

(* ===================================================================== *)
(** ** Sequences of history appends, and sample data *)
(* ===================================================================== *)

Module Scenario.
Import JS Server.

(** An append: the [userId] of the body (if any), its [conversion], and the
    time at which it is handled. *)
Definition append : Type := option string * Conversion * Z.

Definition append_user (a : append) : string := default "anonymous" a.1.1.

Definition append_record (a : append) : ConversionRecord :=
  {| conversion := a.1.2; timestamp := a.2 |}.

(** The state after handling the appends [ops] in order. *)
Definition appends (p : provider) (ops : list append) (s : state) : state :=
  foldl (fun s a =>
           (post_history a.1.1 a.1.2 {| upstream := p; now := a.2 |} s).2)
    s ops.

(** The records appended for [uid], in the order of the appends. *)
Definition records_for (uid : string) (ops : list append)
  : list ConversionRecord :=
  append_record <$> filter (fun a => append_user a = uid) ops.

(** Sample data. *)
Definition meta (n : string) : currency_meta :=
  {| name := n; symbol := n; decimal_digits := 2 |}.

Definition sample_currencies : currency_list :=
  <["USD" := meta "US Dollar"]>
    (<["EUR" := meta "Euro"]>
       (<["JPY" := meta "Japanese Yen"]>
          (<["XAU" := meta "Gold"]> ∅))).

(** Rates against USD; [XAU] has no rate. *)
Definition sample_rates : rate_table :=
  <["USD" := 1%float]> (<["EUR" := 49%float]> (<["JPY" := 150%float]> ∅)).

Definition sample_rates_eur : rate_table :=
  <["USD" := 2%float]> (<["EUR" := 1%float]> (<["JPY" := 300%float]> ∅)).

Definition sample_provider : provider :=
  {| currency_response := Some sample_currencies;
     rates_response := fun b =>
       if bool_decide (b = "USD") then Some sample_rates
       else if bool_decide (b = "EUR") then Some sample_rates_eur
       else None;
     currencies_settle_first := true |}.

Definition failing_provider : provider :=
  {| currency_response := Some sample_currencies;
     rates_response := fun _ => None;
     currencies_settle_first := true |}.

Definition at_time (p : provider) (t : Z) : env := {| upstream := p; now := t |}.

Definition sample_cache : CurrencyCache :=
  {| currencies := Some sample_currencies; rates := Some sample_rates;
     baseCurrency := Some "USD"; lastUpdated := Some 1000 |}.

Definition sample_state : state :=
  {| currencyCache := sample_cache; conversionHistoryStore := ∅;
     requests := [] |}.

Definition sample_conversion : Conversion :=
  {| userId := None; fromCurrency := "USD"; toCurrency := "EUR";
     amount := 1; result := 49; rate := 49 |}.

(** The snapshot for USD is taken at time 1000.  The rates for EUR are
    asked at 300900, while it is not expired; a conversion asks for USD at
    301100, when it is, and its two answers arrive first: the snapshot is
    replaced.  The rates for EUR arrive last. *)
Definition overlapping_refreshes : list Async.event :=
  [ Async.Call "USD" 1000;
    Async.Settle 0 (Some sample_currencies) (Some sample_rates);
    Async.Call "EUR" 300900;
    Async.Call "USD" 301100;
    Async.Settle 1 (Some sample_currencies) (Some sample_rates);
    Async.Settle 0 None (Some sample_rates_eur) ].

(** Twenty-five appends for the anonymous user, at times [1 .. 25]. *)
Definition twenty_five : list append :=
  (fun n => (None, sample_conversion, n)) <$> seqZ 1 25.

(** The same for the user id [constructor]. *)
Definition twenty_five_constructor : list append :=
  (fun n => (Some "constructor", sample_conversion, n)) <$> seqZ 1 25.

End Scenario.

(* ===================================================================== *)
(** ** The routes, and requests served one after the other *)
(* ===================================================================== *)

Module Traffic.
Import JS Server.

(** The seven routes of the application, with the parameters each handler
    reads from the request. *)
Variant request :=
  | GetCurrencies
  | GetRates (base : option string)
  | Convert (from to amount : string)
  | ConvertBulk (req : bulk_request)
  | PostHistory (user : option string) (conv : Conversion)
  | GetHistory (user : option string)
  | DeleteHistory (user : option string).

Definition handle (r : request) : env -> state -> response * state :=
  match r with
  | GetCurrencies => get_currencies
  | GetRates base => get_rates base
  | Convert from to amount => convert from to amount
  | ConvertBulk req => convert_bulk req
  | PostHistory user conv => post_history user conv
  | GetHistory user => get_history user
  | DeleteHistory user => delete_history user
  end.

Definition is_history (r : request) : bool :=
  match r with
  | PostHistory _ _ | GetHistory _ | DeleteHistory _ => true
  | _ => false
  end.

(** The handlers that ask for the base currency USD: all but [/api/rates]
    with another [base]. *)
Definition asks_usd (r : request) : bool :=
  match r with
  | GetRates (Some b) => bool_decide (b = "USD")
  | _ => true
  end.

(** Requests handled one after the other, each with the time at which it is
    handled and the answers the provider would give it: the responses, and
    the state left. *)
Fixpoint serve (arrivals : list (request * env)) (s : state)
  : list response * state :=
  match arrivals with
  | [] => ([], s)
  | (r, e) :: rest =>
      let '(resp, s1) := handle r e s in
      let '(resps, s2) := serve rest s1 in
      (resp :: resps, s2)
  end.

(** Calls of [updateCache], each with its base currency and its time,
    against one provider. *)
Definition refreshes (p : provider) (calls : list (string * Z)) (s : state)
  : state :=
  foldl (fun s c => (updateCache c.1 {| upstream := p; now := c.2 |} s).2)
    s calls.

(** Each call asks for another base than the call before it (the first one:
    than [b]), at a time that is not 0 and at most the expiration window after
    the time of the call before it (the first one: after [t]). *)
Fixpoint base_changes (b : string) (t : Z) (calls : list (string * Z))
  : Prop :=
  match calls with
  | [] => True
  | c :: rest =>
      c.1 ≠ b ∧ c.2 ≠ 0 ∧ c.2 - t ≤ CACHE_EXPIRATION
      ∧ base_changes c.1 c.2 rest
  end.

(** A cache with its four fields. *)
Definition populated (c : CurrencyCache) : Prop :=
  ∃ cur rs b u, c = {| currencies := Some cur; rates := Some rs;
                       baseCurrency := Some b; lastUpdated := Some u |}.

(** Every list of the store holds between 1 and 20 records. *)
Definition bounded_history (h : history_store) : Prop :=
  ∀ user l, h !! user = Some l → (1 ≤ length l ≤ 20)%nat.

(** The times at which the records of a list were appended. *)
Definition timestamps (l : list ConversionRecord) : list Z := timestamp <$> l.

(** Every list of the store is sorted newest first, and none of its records
    is younger than [T]. *)
Definition newest_first_until (T : Z) (h : history_store) : Prop :=
  ∀ user l, h !! user = Some l →
    StronglySorted (fun x y => y ≤ x) (timestamps l)
    ∧ Forall (fun t => t ≤ T) (timestamps l).

(** The state [s] with another history store, and with another cache and
    another log of requests. *)
Definition with_store (h : history_store) (s : state) : state :=
  {| currencyCache := currencyCache s; conversionHistoryStore := h;
     requests := requests s |}.

Definition with_cache (c : CurrencyCache) (rq : list fetch) (s : state)
  : state :=
  {| currencyCache := c; conversionHistoryStore := conversionHistoryStore s;
     requests := rq |}.

(** A computation that neither reads nor writes the history store: run
    with another store it gives the same result and leaves that store. *)
Definition store_oblivious {A} (m : M A) : Prop :=
  ∀ e s h, m e (with_store h s) = ((m e s).1, with_store h (m e s).2).

(** What a cached answer to a request is, for the cache [c]: the handlers
    that only read the cache have one. *)
Definition cached_answer (c : CurrencyCache) (r : request) (resp : response)
  : Prop :=
  match r with
  | GetCurrencies =>
      resp = {| status := 200; payload := CurrenciesBody (currencies c) |}
  | GetRates _ =>
      resp = {| status := 200;
                payload := RatesBody (baseCurrency c) (rates c) |}
  | _ => True
  end.

End Traffic.

(* ===================================================================== *)
(** ** The shape of the heap under interleaving *)
(* ===================================================================== *)

Module Interleaving.
Import Server Async Traffic.

(** The first object is the empty cache the process starts with and is never
    written; every other object has its four fields; the variable refers to
    an object; and a call suspended in the second branch read the variable
    when it referred to an object other than the first. *)
Definition well_formed (w : world) : Prop :=
  heap w !! 0%nat = Some empty_cache
  ∧ (∀ i c, heap w !! i = Some c → (1 ≤ i)%nat → populated c)
  ∧ (binding w < length (heap w))%nat
  ∧ (∀ b t target,
       AwaitRates b t target ∈ in_flight w →
       (1 ≤ target)%nat ∧ (1 ≤ binding w)%nat).

End Interleaving.

(* ===================================================================== *)
(** ** Facts on binary64 arithmetic *)
(* ===================================================================== *)

Module Binary64.

Lemma mul_nan_l (x : float) : (nan * x)%float = nan.
Proof. apply Prim2SF_inj. rewrite mul_spec. reflexivity. Qed.

Lemma mul_nan_r (x : float) : (x * nan)%float = nan.
Proof.
  apply Prim2SF_inj. rewrite mul_spec.
  change (Prim2SF nan) with S754_nan.
  destruct (Prim2SF x); reflexivity.
Qed.

(** The product of a finite float by one: the mantissa gains 52 zero bits,
    which the rounding shifts out again, exactly. *)
Lemma SFmul_one_r (s : bool) (m : positive) (e : Z) :
  bounded prec emax m e = true →
  SFmul prec emax (S754_finite s m e) (S754_finite false 4503599627370496 (-52))
  = S754_finite s m e.
Proof.
  unfold bounded, canonical_mantissa. intros [Hc He]%andb_prop.
  apply Z.eqb_eq in Hc.
  unfold SFmul. rewrite Pos.mul_comm, xorb_false_r.
  let t := eval lazy beta iota delta [Pos.mul] in (4503599627370496 * m)%positive in
  change (4503599627370496 * m)%positive with t.
  unfold binary_round_aux, shr_fexp.
  cbn [Zdigits2 digits2_pos].
  repeat rewrite Pos2Z.inj_succ.
  match goal with |- context [fexp prec emax ?x] =>
    replace x with (Z.pos (digits2_pos m) + e) by lia end.
  rewrite Hc.
  replace (e - (e + -52)) with 52 by lia.
  cbn [shr shr_record_of_loc SpecFloat.iter_pos shr_1 orb].
  cbn [shr_m loc_of_shr_record round_nearest_even Zdigits2].
  replace (e + -52 + 52) with e by lia.
  rewrite Hc, Z.sub_diag. cbn [shr shr_m shr_record_of_loc].
  by rewrite He.
Qed.

Lemma mul_one_r (x : float) : (x * 1)%float = x.
Proof.
  apply Prim2SF_inj. rewrite mul_spec.
  change (Prim2SF 1) with (S754_finite false 4503599627370496 (-52)).
  pose proof (Prim2SF_valid x) as Hv.
  destruct (Prim2SF x) as [s|s| |s m e]; simpl in Hv.
  - cbn. by rewrite xorb_false_r.
  - cbn. by rewrite xorb_false_r.
  - reflexivity.
  - by apply SFmul_one_r.
Qed.

End Binary64.

(* ===================================================================== *)
(** ** Property reads *)
(* ===================================================================== *)

Module ObjectFacts.
Import JS Server.

Section Reads.
Context {V : Type}.
Implicit Types (object : gmap string V) (key : string).

Lemma own_read object key : own (read object key) = object !! key.
Proof. unfold read. destruct (object !! key); [done|]. by destruct (inherited key). Qed.

Lemma read_own object key v : object !! key = Some v → read object key = Own v.
Proof. unfold read. by intros ->. Qed.

Lemma read_inherited object key :
  object !! key = None → inherited key = true → read object key = Inherited.
Proof. unfold read. by intros -> ->. Qed.

Lemma read_undefined object key :
  object !! key = None → ordinary key → read object key = Undefined.
Proof. unfold read, ordinary. by intros -> ->. Qed.

Lemma read_Own_inv object key v : read object key = Own v → object !! key = Some v.
Proof. unfold read. destruct (object !! key); [congruence|]. by destruct (inherited key). Qed.

Lemma read_Undefined_inv object key : read object key = Undefined → object !! key = None.
Proof. unfold read. by destruct (object !! key). Qed.

(** An own property is truthy. *)
Lemma truthy_own object key : is_Some (object !! key) → truthy (read object key) = true.
Proof. intros [v Hv]. by rewrite (read_own _ _ v). Qed.

(** So is an inherited one. *)
Lemma truthy_inherited object key : inherited key = true → truthy (read object key) = true.
Proof. unfold read. intros ->. by destruct (object !! key). Qed.

(** For an ordinary key the truthiness test is the membership test. *)
Lemma truthy_ordinary object key :
  ordinary key → truthy (read object key) = bool_decide (is_Some (object !! key)).
Proof.
  unfold read, ordinary. intros ->.
  destruct (object !! key) eqn:Hk; symmetry.
  - by apply bool_decide_eq_true_2.
  - apply bool_decide_eq_false_2. by intros [? ?].
Qed.

Lemma lookup_assign_ne key key' (v : V) object :
  key ≠ key' → assign key v object !! key' = object !! key'.
Proof. unfold assign. intros ?. case_bool_decide; [done|]. by apply lookup_insert_ne. Qed.

Lemma lookup_assign key (v : V) object :
  key ≠ "__proto__" → assign key v object !! key = Some v.
Proof. unfold assign. intros ?. rewrite bool_decide_eq_false_2 by done. apply lookup_insert_eq. Qed.

Lemma assign_proto (v : V) object : assign "__proto__" v object = object.
Proof. done. Qed.

End Reads.

Lemma rate_of_read (rs : rate_table) key : rate_of (read rs key) = to_number (rs !! key).
Proof. unfold rate_of. by rewrite own_read. Qed.

Lemma ordinary_not_proto key : ordinary key → key ≠ "__proto__".
Proof. intros Ho ->. done. Qed.

End ObjectFacts.

(* ===================================================================== *)
(** ** [parseFloat] and white space *)
(* ===================================================================== *)

Module ParseFacts.
Import JS.

Lemma trim_start_white_space :
  Forall (λ w, ∀ s, trim_start (w +:+ s) = trim_start s) white_space.
Proof. repeat constructor. Qed.

(** [X20] [parseFloat] skips the white space at the head of its argument,
    whatever follows: each of the 25 white space characters, line
    terminators and space separators, of one to three bytes.  An amount
    written after a no-break space is read; the zero-width space U+200B is
    not white space, and an amount written after it is not read. *)
Theorem parseFloat_skips_white_space :
  Forall (λ w, ∀ s, parseFloat (w +:+ s) = parseFloat s) white_space
  ∧ length white_space = 25%nat
  ∧ parseFloat (bytes [194; 160]%N +:+ "5") = 5%float
  ∧ isNaN (parseFloat (bytes [226; 128; 139]%N +:+ "5")) = true.
Proof.
  split; [|done].
  eapply Forall_impl; [exact trim_start_white_space|].
  intros w Hw s. unfold parseFloat. by rewrite Hw.
Qed.

End ParseFacts.

(* ===================================================================== *)
(** ** The cache: when it is refreshed, and what a refresh changes *)
(* ===================================================================== *)

Module CacheFacts.
Import JS Server Scenario.

Ltac run :=
  unfold updateCache, fetchAllCurrencies, fetchAllRates, Promise_all, answer,
    send, get_cache, set_cache, Date_now, mbind, mret, M_bind, M_ret, bind, ret,
    throw in *; simpl in *.

Lemma stale_true t c : stale t c = true ↔ no_snapshot c ∨ expired t c.
Proof.
  unfold stale, no_snapshot, expired, falsy_time.
  destruct (currencies c) as [cur|], (lastUpdated c) as [u|]; simpl.
  - rewrite orb_true_iff, Z.eqb_eq, Z.ltb_lt. split.
    + intros [->| H]; [left; auto | right; exists u; split; [done | lia]].
    + intros [[H|[H|H]]|(u' & H & Hu)]; simplify_eq; [left; done | right; lia].
  - split; [intros _; left; auto | done].
  - split; [intros _; left; auto | done].
  - split; [intros _; left; auto | done].
Qed.

Lemma stale_false t c : stale t c = false ↔ fresh t c.
Proof. unfold fresh. rewrite <- not_true_iff_false, stale_true. tauto. Qed.

Lemma sent_by_app s s' fs : requests s' = requests s ++ fs → sent_by s s' = fs.
Proof. unfold sent_by. intros ->. by rewrite drop_app_length. Qed.

(** [updateCache], branch by branch and answer by answer. *)
Lemma updateCache_cases e s base :
  let c := currencyCache s in
  let with_requests c' fs :=
    {| currencyCache := c'; conversionHistoryStore := conversionHistoryStore s;
       requests := requests s ++ fs |} in
  updateCache base e s =
    if stale (now e) c then
      match currency_response (upstream e), rates_response (upstream e) base with
      | Some cur, Some rs =>
          (inr tt,
           with_requests {| currencies := Some cur; rates := Some rs;
                            baseCurrency := Some base;
                            lastUpdated := Some (now e) |}
             [FetchCurrencies; FetchRates base])
      | None, Some _ =>
          (inl FailedCurrencyList,
           with_requests c [FetchCurrencies; FetchRates base])
      | Some _, None =>
          (inl FailedExchangeRates,
           with_requests c [FetchCurrencies; FetchRates base])
      | None, None =>
          (inl (if currencies_settle_first (upstream e)
                then FailedCurrencyList else FailedExchangeRates),
           with_requests c [FetchCurrencies; FetchRates base])
      end
    else if bool_decide (baseCurrency c = Some base) then (inr tt, s)
    else
      match rates_response (upstream e) base with
      | Some rs =>
          (inr tt,
           with_requests {| currencies := currencies c; rates := Some rs;
                            baseCurrency := Some base;
                            lastUpdated := Some (now e) |}
             [FetchRates base])
      | None => (inl FailedExchangeRates, with_requests c [FetchRates base])
      end.
Proof.
  destruct s as [c h rq]. run.
  destruct (stale _ _).
  - destruct (currency_response _), (rates_response _ _); simpl;
      by rewrite <- app_assoc.
  - destruct (bool_decide _); simpl; [done|].
    by destruct (rates_response _ _).
Qed.

(** What a successful refresh establishes. *)
Lemma updateCache_ok e s base s1 :
  updateCache base e s = (inr tt, s1) →
  is_Some (currencies (currencyCache s1))
  ∧ baseCurrency (currencyCache s1) = Some base
  ∧ conversionHistoryStore s1 = conversionHistoryStore s.
Proof.
  rewrite updateCache_cases. cbv zeta.
  destruct (stale _ _) eqn:Hst.
  - destruct (currency_response _), (rates_response _ _);
      try destruct (currencies_settle_first _); intros [= <-]; simpl; eauto.
  - assert (is_Some (currencies (currencyCache s))) as Hcur.
    { unfold stale in Hst. apply orb_false_elim in Hst as [Hst _].
      apply orb_false_elim in Hst as [Hst _].
      apply negb_false_iff in Hst. by apply bool_decide_eq_true in Hst. }
    destruct (bool_decide _) eqn:Hb.
    + apply bool_decide_eq_true in Hb. by intros [= <-].
    + destruct (rates_response _ _); intros [= <-]; simpl; eauto.
Qed.

(** What a failed refresh leaves. *)
Lemma updateCache_error e s base err s1 :
  updateCache base e s = (inl err, s1) →
  currencyCache s1 = currencyCache s
  ∧ conversionHistoryStore s1 = conversionHistoryStore s
  ∧ is_upstream_error err = true.
Proof.
  rewrite updateCache_cases. cbv zeta.
  destruct (stale _ _).
  - destruct (currency_response _), (rates_response _ _);
      try destruct (currencies_settle_first _); intros [= <- <-]; simpl; eauto.
  - destruct (bool_decide _); [done|].
    destruct (rates_response _ _); intros [= <- <-]; simpl; eauto.
Qed.

(** A snapshot stays whole: absent, or with its four fields. *)
Lemma updateCache_whole e s base :
  whole (currencyCache s) → whole (currencyCache (updateCache base e s).2).
Proof.
  intros Hw. rewrite updateCache_cases. cbv zeta.
  destruct (stale _ _) eqn:Hst.
  - destruct (currency_response _), (rates_response _ _); simpl; try done.
    right. eauto 10.
  - destruct (bool_decide _); [simpl; done|].
    destruct (rates_response _ _); simpl; [|done].
    destruct Hw as [Hw|(cur & rs & b & u & ->)]; [by rewrite Hw in Hst|].
    right. simpl. eauto 10.
Qed.

Lemma whole_rates c : whole c → is_Some (currencies c) → is_Some (rates c).
Proof.
  intros [->|(cur & rs & b & u & ->)] H; simpl in *; [by destruct H | eauto].
Qed.

Lemma respond_throw code (m : M ()) (k : M body) e s err s' :
  m e s = (inl err, s') →
  respond code (m;; k) e s = ({| status := code; payload := ErrorBody err |}, s').
Proof. intros H. unfold respond, mbind, M_bind, bind. by rewrite H. Qed.

(** [C1] The decision of [updateCache(requestedBase)].  With no snapshot, or
    with one older than the expiration window of 5 minutes, the currency list
    and the rate table for [requestedBase] are both requested and, when both
    arrive, the cache is replaced as a whole by what was fetched.  With a
    snapshot that is not expired but has another base currency, only the rate
    table is requested and [rates], [baseCurrency] and [lastUpdated] are
    updated.  With a snapshot that is not expired and has the requested base
    currency, nothing is requested and the state is returned as it was. *)
Theorem updateCache_decision (e : env) (s : state) (base : string) :
  let c := currencyCache s in
  let out := updateCache base e s in
  ((no_snapshot c ∨ expired (now e) c) →
     sent_by s out.2 = [FetchCurrencies; FetchRates base]
     ∧ ∀ cur rs,
         currency_response (upstream e) = Some cur →
         rates_response (upstream e) base = Some rs →
         out.1 = inr tt
         ∧ currencyCache out.2
           = {| currencies := Some cur; rates := Some rs;
                baseCurrency := Some base; lastUpdated := Some (now e) |})
  ∧ (fresh (now e) c → baseCurrency c ≠ Some base →
     sent_by s out.2 = [FetchRates base]
     ∧ ∀ rs,
         rates_response (upstream e) base = Some rs →
         out.1 = inr tt
         ∧ currencyCache out.2
           = {| currencies := currencies c; rates := Some rs;
                baseCurrency := Some base; lastUpdated := Some (now e) |})
  ∧ (fresh (now e) c → baseCurrency c = Some base →
     sent_by s out.2 = [] ∧ out = (inr tt, s)).
Proof.
  intros c out. subst out c. rewrite updateCache_cases. cbv zeta.
  split; [|split].
  - intros Hs%stale_true. rewrite Hs. split.
    + by destruct (currency_response _), (rates_response _ _); simpl;
        apply sent_by_app.
    + by intros cur rs -> ->.
  - intros Hf%stale_false Hb. rewrite Hf, bool_decide_eq_false_2 by done.
    split.
    + by destruct (rates_response _ _); simpl; apply sent_by_app.
    + by intros rs ->.
  - intros Hf%stale_false Hb. rewrite Hf, bool_decide_eq_true_2 by done.
    split; [|done]. unfold sent_by. by rewrite drop_all.
Qed.

(** The first call on the empty cache, at time 1000. *)
Lemma updateCache_decision_witness :
  let out := updateCache "USD" (at_time sample_provider 1000) initial_state in
  sent_by initial_state out.2 = [FetchCurrencies; FetchRates "USD"]
  ∧ out.1 = inr tt
  ∧ currencyCache out.2
    = {| currencies := Some sample_currencies; rates := Some sample_rates;
         baseCurrency := Some "USD"; lastUpdated := Some 1000 |}.
Proof.
  destruct (updateCache_decision (at_time sample_provider 1000)
              initial_state "USD") as [Hcold _].
  destruct Hcold as [Hsent Hcache]; [left; left; reflexivity|].
  split; [exact Hsent|]. by apply Hcache.
Defined.

(** [C3] A refresh one of whose requests fails throws an error of the
    provider client and leaves the cache with its four fields as they were
    (and the history too); the handlers that asked for the refresh answer
    with that error and [success: false], not with cached data. *)
Theorem updateCache_failure (e : env) (s : state) (base : string) (f : fetch) :
  f ∈ sent_by s (updateCache base e s).2 →
  fetch_fails (upstream e) f →
  ∃ err,
    (updateCache base e s).1 = inl err
    ∧ is_upstream_error err = true
    ∧ currencyCache (updateCache base e s).2 = currencyCache s
    ∧ conversionHistoryStore (updateCache base e s).2 = conversionHistoryStore s
    ∧ get_rates (Some base) e s
      = ({| status := 500; payload := ErrorBody err |}, (updateCache base e s).2)
    ∧ (base = "USD" →
       get_currencies e s
       = ({| status := 500; payload := ErrorBody err |}, (updateCache base e s).2)
       ∧ (∀ from to amount,
            isNaN (parseFloat amount) = false →
            convert from to amount e s
            = ({| status := 400; payload := ErrorBody err |},
               (updateCache base e s).2))
       ∧ (∀ source entries,
            source ≠ "" →
            convert_bulk {| from := Some source; amounts := Some entries |} e s
            = ({| status := 400; payload := ErrorBody err |},
               (updateCache base e s).2))).
Proof.
  intros Hin Hfail.
  assert (∃ err, updateCache base e s = (inl err, (updateCache base e s).2)
                 ∧ is_upstream_error err = true) as (err & Herr & Hup).
  { revert Hin. rewrite updateCache_cases. cbv zeta.
    destruct (stale _ _).
    - destruct (currency_response _) eqn:Hcur, (rates_response _ _) eqn:Hrs;
        simpl; erewrite sent_by_app by done; intros Hin.
      + apply elem_of_cons in Hin as [->|Hin]; [simpl in Hfail; congruence|].
        apply list_elem_of_singleton in Hin as ->. simpl in Hfail. congruence.
      + by exists FailedExchangeRates.
      + by exists FailedCurrencyList.
      + destruct (currencies_settle_first _); eauto.
    - destruct (bool_decide _); simpl.
      + unfold sent_by. rewrite drop_all. by intros ?%elem_of_nil.
      + destruct (rates_response _ _) eqn:Hrs; simpl;
          erewrite sent_by_app by done; intros Hin.
        * apply list_elem_of_singleton in Hin as ->. simpl in Hfail. congruence.
        * by exists FailedExchangeRates. }
  pose proof (updateCache_error _ _ _ _ _ Herr) as (Hc & Hh & _).
  exists err. split; [by rewrite Herr|]. do 3 (split; [done|]). split.
  - unfold get_rates. simpl. by apply respond_throw.
  - intros ->. split; [|split].
    + unfold get_currencies. by apply respond_throw.
    + intros from to amount Hnan. unfold convert. rewrite Hnan.
      by apply respond_throw.
    + intros source entries Hne. unfold convert_bulk. simpl.
      rewrite bool_decide_eq_false_2 by done. by apply respond_throw.
Qed.

(** The rate request fails while the snapshot of time 1000 has expired. *)
Lemma updateCache_failure_witness :
  ∃ err,
    (updateCache "USD" (at_time failing_provider 1000000) sample_state).1
    = inl err
    ∧ is_upstream_error err = true
    ∧ currencyCache
        (updateCache "USD" (at_time failing_provider 1000000) sample_state).2
      = sample_cache.
Proof.
  destruct (updateCache_failure (at_time failing_provider 1000000)
              sample_state "USD" (FetchRates "USD"))
    as (err & Herr & Hup & Hcache & _).
  - apply list_elem_of_further, list_elem_of_here.
  - reflexivity.
  - exists err. by split; [|split].
Defined.

(** [C7] A refresh taken because the snapshot, not expired, has another base
    currency than the requested one requests the rate table only, and the
    currency list of the cache after it is the one from before it, whether
    the request succeeds or fails. *)
Theorem wrong_base_refresh_keeps_currencies (e : env) (s : state)
  (base : string) :
  fresh (now e) (currencyCache s) →
  baseCurrency (currencyCache s) ≠ Some base →
  let s' := (updateCache base e s).2 in
  sent_by s s' = [FetchRates base]
  ∧ currencies (currencyCache s') = currencies (currencyCache s)
  ∧ ∀ rs, rates_response (upstream e) base = Some rs →
      rates (currencyCache s') = Some rs
      ∧ baseCurrency (currencyCache s') = Some base
      ∧ lastUpdated (currencyCache s') = Some (now e).
Proof.
  intros Hf%stale_false Hb. rewrite updateCache_cases. cbv zeta.
  rewrite Hf, bool_decide_eq_false_2 by done.
  destruct (rates_response _ _) eqn:Hrs; simpl;
    (split; [by apply sent_by_app|]); (split; [done|]).
  - by intros ? [= <-].
  - done.
Qed.

(** The rates for EUR are asked one second after the snapshot for USD was
    taken. *)
Lemma wrong_base_refresh_witness :
  let s' := (updateCache "EUR" (at_time sample_provider 2000) sample_state).2 in
  sent_by sample_state s' = [FetchRates "EUR"]
  ∧ currencies (currencyCache s') = Some sample_currencies
  ∧ rates (currencyCache s') = Some sample_rates_eur.
Proof.
  destruct (wrong_base_refresh_keeps_currencies
              (at_time sample_provider 2000) sample_state "EUR")
    as (Hsent & Hcur & Hrates).
  - split.
    + intros [H|[H|H]]; discriminate H.
    + intros (u & [= <-] & Hu). vm_compute in Hu. discriminate Hu.
  - discriminate.
  - split; [exact Hsent|]. split; [exact Hcur|]. by apply Hrates.
Defined.

End CacheFacts.

(* ===================================================================== *)
(** ** Single conversion *)
(* ===================================================================== *)

Module ConvertFacts.
Import JS Server Scenario ObjectFacts CacheFacts Binary64.

Lemma valid_code_lookup c code cur :
  currencies c = Some cur → valid_code c code → is_Some (cur !! code).
Proof. intros Hc (cur' & Hc' & Hk). congruence. Qed.

(** The handler of a single conversion, case by case. *)
Lemma convert_cases from to amount e s :
  convert from to amount e s =
    let fail err s' := ({| status := 400; payload := ErrorBody err |}, s') in
    let a := parseFloat amount in
    if isNaN a then fail AmountMustBeNumber s
    else
      match updateCache "USD" e s with
      | (inl err, s1) => fail err s1
      | (inr _, s1) =>
          match currencies (currencyCache s1) with
          | None => fail TypeError s1
          | Some cur =>
              if negb (truthy (read cur from)) || negb (truthy (read cur to))
              then fail InvalidCurrencyCode s1
              else
                match through_usd (λ r, 1 / r)%float
                        (rates (currencyCache s1)) from e s1 with
                | (inl err, _) => fail err s1
                | (inr x, _) =>
                    match through_usd (λ r, r)
                            (rates (currencyCache s1)) to e s1 with
                    | (inl err, _) => fail err s1
                    | (inr y, _) =>
                        ({| status := 200;
                            payload := ConversionBody from to a (x * y)
                                         (a * (x * y)) |}, s1)
                    end
                end
          end
      end.
Proof.
  cbv zeta. unfold convert, respond.
  destruct (isNaN _); [done|].
  unfold mbind, M_bind, bind at 1.
  destruct (updateCache _ _ _) as [[err|[]] s1]; [done|].
  unfold get_cache, bind at 1.
  unfold prop. destruct (currencies _) as [cur|]; [|done].
  unfold mret, M_ret, ret, bind at 1. unfold bind at 1.
  destruct (_ || _); [done|].
  unfold through_usd, prop.
  destruct (bool_decide (from = _)), (bool_decide (to = _)),
    (rates (currencyCache s1)); done.
Qed.

(** A conversion between two valid codes, with an amount that parses, on a
    refreshed snapshot whose rate table is [rs]. *)
Lemma convert_run e s s1 from to amount rs :
  isNaN (parseFloat amount) = false →
  updateCache "USD" e s = (inr tt, s1) →
  valid_code (currencyCache s1) from →
  valid_code (currencyCache s1) to →
  rates (currencyCache s1) = Some rs →
  let a := parseFloat amount in
  let fromToUsd :=
    if bool_decide (from = "USD") then 1%float
    else (1 / to_number (rs !! from))%float in
  let usdToTo :=
    if bool_decide (to = "USD") then 1%float else to_number (rs !! to) in
  convert from to amount e s
  = ({| status := 200;
        payload := ConversionBody from to a (fromToUsd * usdToTo)
                     (a * (fromToUsd * usdToTo)) |}, s1).
Proof.
  intros Hnan Hup Hfrom Hto Hrs.
  rewrite convert_cases. cbv zeta. rewrite Hnan, Hup.
  pose proof (updateCache_ok _ _ _ _ Hup) as ([cur Hcur] & _ & _).
  rewrite Hcur.
  rewrite !truthy_own by eauto using valid_code_lookup. simpl.
  unfold through_usd, prop. rewrite Hrs.
  destruct (bool_decide (from = "USD")), (bool_decide (to = "USD")); simpl;
    by rewrite ?rate_of_read.
Qed.

Lemma listed_truthy c code cur :
  currencies c = Some cur → listed c code ↔ truthy (read cur code) = true.
Proof.
  intros Hc. split; [|by exists cur].
  intros (cur' & Hc' & Hk). congruence.
Qed.

(** A key of the currency list passes the validity test, and so does a
    property name of [Object.prototype]; no other name does. *)
Lemma listed_cases c code :
  listed c code
  ↔ valid_code c code ∨ (is_Some (currencies c) ∧ inherited code = true).
Proof.
  unfold listed, valid_code, read. split.
  - intros (cur & Hc & Hk). destruct (cur !! code) as [m|] eqn:Hm.
    + left. exists cur. by rewrite Hm.
    + right. split; [by eexists|]. by destruct (inherited code).
  - intros [(cur & Hc & [m Hm])|[[cur Hc] Hi]]; exists cur; (split; [done|]).
    + by rewrite Hm.
    + rewrite Hi. by destruct (cur !! code).
Qed.

(** A conversion between two codes that pass the validity test. *)
Lemma convert_run_listed e s s1 from to amount rs :
  isNaN (parseFloat amount) = false →
  updateCache "USD" e s = (inr tt, s1) →
  listed (currencyCache s1) from →
  listed (currencyCache s1) to →
  rates (currencyCache s1) = Some rs →
  let a := parseFloat amount in
  let fromToUsd :=
    if bool_decide (from = "USD") then 1%float
    else (1 / to_number (rs !! from))%float in
  let usdToTo :=
    if bool_decide (to = "USD") then 1%float else to_number (rs !! to) in
  convert from to amount e s
  = ({| status := 200;
        payload := ConversionBody from to a (fromToUsd * usdToTo)
                     (a * (fromToUsd * usdToTo)) |}, s1).
Proof.
  intros Hnan Hup Hfrom Hto Hrs.
  rewrite convert_cases. cbv zeta. rewrite Hnan, Hup.
  pose proof (updateCache_ok _ _ _ _ Hup) as ([cur Hcur] & _ & _).
  rewrite Hcur.
  apply (listed_truthy _ _ cur Hcur) in Hfrom, Hto. rewrite Hfrom, Hto. simpl.
  unfold through_usd, prop. rewrite Hrs.
  destruct (bool_decide (from = "USD")), (bool_decide (to = "USD")); simpl;
    by rewrite ?rate_of_read.
Qed.

(** After a refresh of a whole snapshot the rate table is there. *)
Lemma refreshed_rates e s s1 base :
  whole (currencyCache s) →
  updateCache base e s = (inr tt, s1) →
  is_Some (rates (currencyCache s1)).
Proof.
  intros Hw Hup.
  pose proof (updateCache_ok _ _ _ _ Hup) as (Hcur & _ & _).
  pose proof (updateCache_whole e s base Hw) as Hw1. rewrite Hup in Hw1.
  by apply whole_rates.
Qed.

(** [C2] A conversion between valid codes [from] and [to] of an amount [a]
    that parses: with [B] the base currency of the snapshot and [rs] its rate
    table, the rate returned is [fromToBase * baseToTo], where [fromToBase] is
    1 if [from] is [B] and [1 / rs[from]] otherwise, and [baseToTo] is 1 if
    [to] is [B] and [rs[to]] otherwise; the result returned is [a * rate]. *)
Theorem convert_cross_rate (e : env) (s s1 : state) (from to amount : string) :
  isNaN (parseFloat amount) = false →
  whole (currencyCache s) →
  updateCache "USD" e s = (inr tt, s1) →
  valid_code (currencyCache s1) from →
  valid_code (currencyCache s1) to →
  ∃ B rs,
    baseCurrency (currencyCache s1) = Some B
    ∧ rates (currencyCache s1) = Some rs
    ∧ let a := parseFloat amount in
      let fromToBase :=
        if decide (from = B) then 1%float
        else (1 / to_number (rs !! from))%float in
      let baseToTo :=
        if decide (to = B) then 1%float else to_number (rs !! to) in
      let r := (fromToBase * baseToTo)%float in
      convert from to amount e s
      = ({| status := 200;
            payload := ConversionBody from to a r (a * r) |}, s1).
Proof.
  intros Hnan Hw Hup Hfrom Hto.
  pose proof (updateCache_ok _ _ _ _ Hup) as (_ & Hbase & _).
  destruct (refreshed_rates _ _ _ _ Hw Hup) as [rs Hrs].
  exists "USD", rs. split; [done|]. split; [done|]. cbv zeta.
  rewrite (convert_run e s s1 from to amount rs) by done. cbv zeta.
  repeat case_bool_decide; repeat case_decide; done.
Qed.

(** 2.5 EUR to JPY on the first request. *)
Lemma convert_cross_rate_witness :
  ∃ s1,
    convert "EUR" "JPY" "2.5" (at_time sample_provider 1000) initial_state
    = ({| status := 200;
          payload := ConversionBody "EUR" "JPY" 2.5 (1 / 49 * 150)
                       (2.5 * (1 / 49 * 150)) |}, s1).
Proof.
  exists (updateCache "USD" (at_time sample_provider 1000) initial_state).2.
  destruct (convert_cross_rate (at_time sample_provider 1000) initial_state
              (updateCache "USD" (at_time sample_provider 1000) initial_state).2
              "EUR" "JPY" "2.5")
    as (B & rs & HB & Hrs & Heq).
  - reflexivity.
  - left. reflexivity.
  - reflexivity.
  - exists sample_currencies. split; [reflexivity|]. by eexists.
  - exists sample_currencies. split; [reflexivity|]. by eexists.
  - injection HB as <-. injection Hrs as <-. exact Heq.
Defined.

(** A currency that is not the base converted to itself: with the rate 49
    the quotient and the product do not cancel, the rate returned is the float
    just below 1 and the result is not the amount. *)
Lemma same_currency_rate_below_one :
  valid_code sample_cache "EUR"
  ∧ ∃ s1,
      convert "EUR" "EUR" "10" (at_time sample_provider 1000) initial_state
      = ({| status := 200;
            payload := ConversionBody "EUR" "EUR" 10 (1 / 49 * 49)
                         (10 * (1 / 49 * 49)) |}, s1)
      ∧ (1 / 49 * 49)%float ≠ 1%float
      ∧ (10 * (1 / 49 * 49))%float ≠ 10%float.
Proof.
  split.
  - exists sample_currencies. split; [reflexivity|]. by eexists.
  - eexists. split; [vm_compute; reflexivity|].
    split; intros H%(f_equal Prim2SF); vm_compute in H; discriminate H.
Qed.

(** [C5], as the code has it.  A valid code [X] converted to itself, with an
    amount [a] that parses: if [X] is the base currency USD the rate is 1 and
    the result is [a], exactly; otherwise the rate is the float
    [(1 / rs[X]) * rs[X]] and the result is [a] times that rate. *)
Theorem convert_same_currency (e : env) (s s1 : state) (X amount : string) :
  isNaN (parseFloat amount) = false →
  whole (currencyCache s) →
  updateCache "USD" e s = (inr tt, s1) →
  valid_code (currencyCache s1) X →
  ∃ rs,
    rates (currencyCache s1) = Some rs
    ∧ baseCurrency (currencyCache s1) = Some "USD"
    ∧ let a := parseFloat amount in
      let x := to_number (rs !! X) in
      let r := (1 / x * x)%float in
      (X = "USD" →
       convert X X amount e s
       = ({| status := 200; payload := ConversionBody X X a 1 a |}, s1))
      ∧ (X ≠ "USD" →
         convert X X amount e s
         = ({| status := 200; payload := ConversionBody X X a r (a * r) |}, s1)).
Proof.
  intros Hnan Hw Hup HX.
  pose proof (updateCache_ok _ _ _ _ Hup) as (_ & Hbase & _).
  destruct (refreshed_rates _ _ _ _ Hw Hup) as [rs Hrs].
  exists rs. split; [done|]. split; [done|]. cbv zeta.
  rewrite (convert_run e s s1 X X amount rs) by done. cbv zeta.
  split; intros HX'.
  - rewrite bool_decide_eq_true_2 by done.
    change (1 * 1)%float with 1%float. by rewrite mul_one_r.
  - by rewrite bool_decide_eq_false_2.
Qed.

(** USD to USD, with an amount that has no exact binary form. *)
Lemma convert_same_currency_witness :
  ∃ s1,
    convert "USD" "USD" "0.1" (at_time sample_provider 1000) initial_state
    = ({| status := 200;
          payload := ConversionBody "USD" "USD" (parseFloat "0.1") 1
                       (parseFloat "0.1") |}, s1).
Proof.
  exists (updateCache "USD" (at_time sample_provider 1000) initial_state).2.
  destruct (convert_same_currency (at_time sample_provider 1000) initial_state
              (updateCache "USD" (at_time sample_provider 1000) initial_state).2
              "USD" "0.1")
    as (rs & _ & _ & Husd & _).
  - reflexivity.
  - left. reflexivity.
  - reflexivity.
  - exists sample_currencies. split; [reflexivity|]. by eexists.
  - by apply Husd.
Defined.

(** [C10] A code that is a key of the currency list but has no entry in the
    rate table, and is not USD: a conversion from it or to it, between valid
    codes and with an amount that parses, succeeds, and its rate and its
    result are NaN. *)
Theorem convert_missing_rate_is_nan (e : env) (s s1 : state)
  (from to amount code : string) (rs : rate_table) :
  isNaN (parseFloat amount) = false →
  updateCache "USD" e s = (inr tt, s1) →
  valid_code (currencyCache s1) from →
  valid_code (currencyCache s1) to →
  rates (currencyCache s1) = Some rs →
  code = from ∨ code = to →
  code ≠ "USD" →
  rs !! code = None →
  convert from to amount e s
  = ({| status := 200;
        payload := ConversionBody from to (parseFloat amount) nan nan |}, s1).
Proof.
  intros Hnan Hup Hfrom Hto Hrs Hcode Husd Hmiss.
  rewrite (convert_run e s s1 from to amount rs) by done. cbv zeta.
  destruct Hcode as [<-|<-].
  - rewrite (bool_decide_eq_false_2 (code = "USD")) by done.
    rewrite Hmiss. simpl to_number. change (1 / nan)%float with nan.
    by rewrite mul_nan_l, mul_nan_r.
  - rewrite (bool_decide_eq_false_2 (code = "USD")) by done.
    rewrite Hmiss. simpl to_number. by rewrite !mul_nan_r.
Qed.

(** Gold is listed but has no rate. *)
Lemma convert_missing_rate_witness :
  ∃ s1,
    convert "XAU" "EUR" "3" (at_time sample_provider 1000) initial_state
    = ({| status := 200; payload := ConversionBody "XAU" "EUR" 3 nan nan |}, s1).
Proof.
  exists (updateCache "USD" (at_time sample_provider 1000) initial_state).2.
  apply (convert_missing_rate_is_nan (at_time sample_provider 1000)
           initial_state _ "XAU" "EUR" "3" "XAU" sample_rates).
  - reflexivity.
  - reflexivity.
  - exists sample_currencies. split; [reflexivity|]. by eexists.
  - exists sample_currencies. split; [reflexivity|]. by eexists.
  - reflexivity.
  - by left.
  - discriminate.
  - reflexivity.
Defined.

(** The amount ["Infinity"] parses to the float infinity, which is not NaN:
    the conversion succeeds.  And a conversion to an unknown code fails only
    after the refresh has filled the cache. *)
Lemma convert_accepts_Infinity :
  parseFloat "Infinity" = infinity
  ∧ (∃ s1,
       convert "USD" "EUR" "Infinity" (at_time sample_provider 1000)
         initial_state
       = ({| status := 200;
             payload := ConversionBody "USD" "EUR" infinity 49 infinity |}, s1))
  ∧ (∃ s1,
       convert "USD" "ZZZ" "1" (at_time sample_provider 1000) initial_state
       = ({| status := 400; payload := ErrorBody InvalidCurrencyCode |}, s1)
       ∧ currencyCache initial_state = empty_cache
       ∧ currencyCache s1 = sample_cache).
Proof.
  split; [reflexivity|]. split.
  - eexists. vm_compute. reflexivity.
  - eexists. split; [vm_compute; reflexivity|]. split; reflexivity.
Qed.

(** [C6], as the code has it.  For codes [from] and [to] that are not
    property names of [Object.prototype], a single conversion fails with a
    validation error if and only if [parseFloat(amount)] is NaN, or the
    refresh having succeeded [from] or [to] is not a key of the currency list
    of the refreshed snapshot; an amount that parses to an infinity is
    accepted.  For all codes: the history is never changed; when the amount
    is rejected the answer is 400 and the cache is not touched; in every
    other case the state is the one [updateCache('USD')] leaves. *)
Theorem convert_validation (e : env) (s : state) (from to amount : string) :
  let out := convert from to amount e s in
  let refreshed := updateCache "USD" e s in
  conversionHistoryStore out.2 = conversionHistoryStore s
  ∧ (ordinary from → ordinary to →
     ((∃ err, payload out.1 = ErrorBody err ∧ is_validation_error err = true)
      ↔ isNaN (parseFloat amount) = true
        ∨ (refreshed.1 = inr tt
           ∧ ¬ (valid_code (currencyCache refreshed.2) from
                ∧ valid_code (currencyCache refreshed.2) to))))
  ∧ (isNaN (parseFloat amount) = true →
     out = ({| status := 400; payload := ErrorBody AmountMustBeNumber |}, s))
  ∧ (isNaN (parseFloat amount) = false → out.2 = refreshed.2).
Proof.
  cbv zeta. rewrite convert_cases. cbv zeta.
  destruct (isNaN (parseFloat amount)) eqn:Hnan.
  { simpl. repeat split; try done; eauto. }
  destruct (updateCache "USD" e s) as [[err|[]] s1] eqn:Hup.
  { apply updateCache_error in Hup as (_ & Hh & Herr). simpl.
    repeat split; try done.
    - intros (err' & [= <-] & Hv). by destruct err.
    - intros [?|[? _]]; done. }
  pose proof (updateCache_ok _ _ _ _ Hup) as ([cur Hcur] & _ & Hh).
  rewrite Hcur. simpl.
  destruct (truthy (read cur from)) eqn:Hf;
    destruct (truthy (read cur to)) eqn:Ht; simpl.
  - unfold through_usd, prop.
    destruct (bool_decide (from = "USD")), (bool_decide (to = "USD")),
      (rates (currencyCache s1)); simpl;
      (split; [done|]); (split; [|done]); intros Hof Hot;
      rewrite truthy_ordinary in Hf, Ht by done;
      apply bool_decide_eq_true in Hf, Ht;
      (assert (valid_code (currencyCache s1) from
               ∧ valid_code (currencyCache s1) to)
         as Hv by (split; eexists; eauto));
      (split; [intros (err' & [= <-] & ?); done | intros [?|[_ ?]]; done]).
  - split; [done|]. split; [|done]. intros Hof Hot.
    rewrite truthy_ordinary in Ht by done. apply bool_decide_eq_false in Ht.
    split; [|eauto]. intros _. right. split; [done|].
    intros [_ Hv]. eauto using valid_code_lookup.
  - split; [done|]. split; [|done]. intros Hof Hot.
    rewrite truthy_ordinary in Hf by done. apply bool_decide_eq_false in Hf.
    split; [|eauto]. intros _. right. split; [done|].
    intros [Hv _]. eauto using valid_code_lookup.
  - split; [done|]. split; [|done]. intros Hof Hot.
    rewrite truthy_ordinary in Hf by done. apply bool_decide_eq_false in Hf.
    split; [|eauto]. intros _. right. split; [done|].
    intros [Hv _]. eauto using valid_code_lookup.
Qed.

(** An amount with no numeric prefix, on a filled cache; and the unknown
    code ZZZ. *)
Lemma convert_validation_witness :
  convert "USD" "EUR" "abc" (at_time sample_provider 2000) sample_state
  = ({| status := 400; payload := ErrorBody AmountMustBeNumber |}, sample_state)
  ∧ ∃ err,
      payload (convert "USD" "ZZZ" "1" (at_time sample_provider 2000)
                 sample_state).1 = ErrorBody err
      ∧ is_validation_error err = true.
Proof.
  split.
  - apply (convert_validation (at_time sample_provider 2000) sample_state
             "USD" "EUR" "abc").
    reflexivity.
  - apply (convert_validation (at_time sample_provider 2000) sample_state
             "USD" "ZZZ" "1"); [reflexivity|reflexivity|].
    right. split; [reflexivity|].
    intros [_ (cur & [= <-] & Hk)]. by destruct Hk.
Defined.

(** [X21] The validity test of a single conversion lets the property names
    of [Object.prototype] through.  With an amount that parses and a
    successful refresh, a conversion from such a name that is not a key of
    the currency list, to a code that passes the test, answers 200: its rate
    is computed from what the rate table holds for the name, and is NaN,
    with the result, when the table has no rate for it. *)
Theorem convert_accepts_inherited_names (e : env) (s s1 : state)
  (from to amount : string) :
  isNaN (parseFloat amount) = false →
  whole (currencyCache s) →
  updateCache "USD" e s = (inr tt, s1) →
  inherited from = true →
  ¬ valid_code (currencyCache s1) from →
  listed (currencyCache s1) to →
  ∃ rs,
    rates (currencyCache s1) = Some rs
    ∧ let a := parseFloat amount in
      let usdToTo :=
        if decide (to = "USD") then 1%float else to_number (rs !! to) in
      let r := (1 / to_number (rs !! from) * usdToTo)%float in
      convert from to amount e s
      = ({| status := 200; payload := ConversionBody from to a r (a * r) |}, s1)
      ∧ (rs !! from = None →
         convert from to amount e s
         = ({| status := 200; payload := ConversionBody from to a nan nan |},
            s1)).
Proof.
  intros Hnan Hw Hup Hi Hinv Hto.
  destruct (refreshed_rates _ _ _ _ Hw Hup) as [rs Hrs].
  pose proof (updateCache_ok _ _ _ _ Hup) as (Hcur & _ & _).
  assert (listed (currencyCache s1) from) as Hfrom.
  { apply listed_cases. by right. }
  assert (from ≠ "USD") as Husd.
  { intros ->. vm_compute in Hi. discriminate Hi. }
  exists rs. split; [done|]. cbv zeta.
  rewrite (convert_run_listed e s s1 from to amount rs) by done. cbv zeta.
  rewrite (bool_decide_eq_false_2 (from = "USD")) by done.
  split.
  - repeat case_bool_decide; repeat case_decide; done.
  - intros ->. simpl to_number. change (1 / nan)%float with nan.
    by rewrite mul_nan_l, mul_nan_r.
Qed.

(** [GET /api/convert/constructor/USD/1] on a cold cache. *)
Lemma convert_constructor_witness :
  ∃ s1,
    convert "constructor" "USD" "1" (at_time sample_provider 1000) initial_state
    = ({| status := 200;
          payload := ConversionBody "constructor" "USD" 1 nan nan |}, s1).
Proof.
  exists (updateCache "USD" (at_time sample_provider 1000) initial_state).2.
  destruct (convert_accepts_inherited_names (at_time sample_provider 1000)
              initial_state
              (updateCache "USD" (at_time sample_provider 1000) initial_state).2
              "constructor" "USD" "1")
    as (rs & Hrs & _ & Hnan).
  - reflexivity.
  - left. reflexivity.
  - reflexivity.
  - reflexivity.
  - intros (cur & [= <-] & Hk). by destruct Hk.
  - exists sample_currencies. split; reflexivity.
  - injection Hrs as <-. apply Hnan. reflexivity.
Defined.

End ConvertFacts.

(* ===================================================================== *)
(** ** Bulk conversion *)
(* ===================================================================== *)

Module BulkFacts.
Import JS Server Scenario ObjectFacts CacheFacts ConvertFacts.

(** With both tables present and amounts that convert to strings the loop
    does not throw: it assigns, key after key, the entry of that key. *)
Lemma bulk_loop_run c cur rs f entries acc e s :
  currencies c = Some cur →
  rates c = Some rs →
  printable entries →
  bulk_loop c f entries acc e s
  = (inr (foldl (λ acc kv, assign kv.1 (entry_for cur rs f kv.1 kv.2) acc)
            acc entries), s).
Proof.
  intros Hcur Hrs Hp. revert acc.
  induction Hp as [|[k v] rest Hv _ IH]; intros acc; [done|].
  simpl in Hv.
  simpl. unfold prop, mbind, M_bind, bind at 1. rewrite Hcur. simpl.
  unfold entry_for at 2.
  destruct (negb _); [apply IH|].
  unfold parseFloat_any, bind at 1. rewrite Hv. simpl.
  destruct (isNaN _); [apply IH|].
  unfold through_usd, prop, bind at 1. rewrite Hrs.
  destruct (bool_decide (k = "USD")); simpl; rewrite ?rate_of_read; apply IH.
Qed.

(** The loop throws, whatever it has written, when the amount of a key that
    passes the validity test does not convert to a string. *)
Lemma bulk_loop_abort c cur rs f entries acc e s k v :
  currencies c = Some cur →
  rates c = Some rs →
  (k, v) ∈ entries →
  truthy (read cur k) = true →
  unprintable v = true →
  bulk_loop c f entries acc e s = (inl NotPrimitive, s).
Proof.
  intros Hcur Hrs Hin Hk Hv. revert acc.
  induction entries as [|[k' v'] rest IH]; intros acc.
  { by apply elem_of_nil in Hin. }
  simpl. unfold prop, mbind, M_bind, bind at 1. rewrite Hcur. simpl.
  apply elem_of_cons in Hin as [[= <- <-]|Hin].
  - rewrite Hk. simpl. unfold parseFloat_any, bind at 1. by rewrite Hv.
  - destruct (negb _); [by apply IH|].
    unfold parseFloat_any, bind at 1.
    destruct (unprintable v'); [done|]. simpl.
    destruct (isNaN _); [by apply IH|].
    unfold through_usd, prop, bind at 1. rewrite Hrs.
    destruct (bool_decide (k' = "USD")); simpl; by apply IH.
Qed.

Section Writes.
Context {V : Type} (g : string → json_value → V).

(** A key that is not among the entries is not written. *)
Lemma writes_lookup_other entries (acc : gmap string V) k :
  k ∉ entries.*1 →
  foldl (λ acc kv, assign kv.1 (g kv.1 kv.2) acc) acc entries !! k = acc !! k.
Proof.
  revert acc. induction entries as [|[k' v'] rest IH]; intros acc Hk; [done|].
  simpl in *. apply not_elem_of_cons in Hk as [Hne Hk].
  rewrite IH by done. by rewrite lookup_assign_ne.
Qed.

(** Nor is the key [__proto__], whatever the entries. *)
Lemma writes_lookup_proto entries (acc : gmap string V) :
  foldl (λ acc kv, assign kv.1 (g kv.1 kv.2) acc) acc entries !! "__proto__"
  = acc !! "__proto__".
Proof.
  revert acc. induction entries as [|[k' v'] rest IH]; intros acc; [done|].
  simpl. rewrite IH. unfold assign. case_bool_decide as Hk; [done|].
  by rewrite lookup_insert_ne.
Qed.

(** Any other key among the entries, which are the entries of an object,
    holds what was written for it. *)
Lemma writes_lookup_entry entries (acc : gmap string V) k v :
  NoDup entries.*1 → (k, v) ∈ entries → k ≠ "__proto__" →
  foldl (λ acc kv, assign kv.1 (g kv.1 kv.2) acc) acc entries !! k
  = Some (g k v).
Proof.
  revert acc. induction entries as [|[k' v'] rest IH]; intros acc Hnd Hin Hp.
  { by apply elem_of_nil in Hin. }
  simpl in *. apply NoDup_cons in Hnd as [Hk' Hnd].
  apply elem_of_cons in Hin as [[= <- <-]|Hin].
  - rewrite writes_lookup_other by done. by apply lookup_assign.
  - by apply IH.
Qed.
End Writes.

Lemma convert_bulk_run e s s1 source entries cur rs :
  source ≠ "" →
  updateCache "USD" e s = (inr tt, s1) →
  currencies (currencyCache s1) = Some cur →
  rates (currencyCache s1) = Some rs →
  printable entries →
  convert_bulk {| from := Some source; amounts := Some entries |} e s
  = if truthy (read cur source) then
      let fromToUsd :=
        if bool_decide (source = "USD") then 1%float
        else (1 / to_number (rs !! source))%float in
      ({| status := 200;
          payload :=
            BulkBody source
              (foldl (λ acc kv,
                        assign kv.1 (entry_for cur rs fromToUsd kv.1 kv.2) acc)
                 ∅ entries) |}, s1)
    else
      ({| status := 400; payload := ErrorBody (InvalidSourceCurrency source) |},
       s1).
Proof.
  intros Hne Hup Hcur Hrs Hp.
  unfold convert_bulk, respond. simpl.
  rewrite bool_decide_eq_false_2 by done.
  unfold mbind, M_bind, bind at 1. rewrite Hup.
  unfold get_cache, bind at 1. unfold prop. rewrite Hcur.
  unfold mret, M_ret, ret, bind at 1.
  destruct (truthy _); simpl; [|done].
  unfold through_usd, prop. rewrite Hrs.
  destruct (bool_decide (source = "USD")); simpl;
    unfold bind; simpl; rewrite ?rate_of_read; by erewrite bulk_loop_run.
Qed.

Lemma convert_bulk_abort e s s1 source entries cur rs k v :
  source ≠ "" →
  updateCache "USD" e s = (inr tt, s1) →
  currencies (currencyCache s1) = Some cur →
  rates (currencyCache s1) = Some rs →
  truthy (read cur source) = true →
  (k, v) ∈ entries →
  truthy (read cur k) = true →
  unprintable v = true →
  convert_bulk {| from := Some source; amounts := Some entries |} e s
  = ({| status := 400; payload := ErrorBody NotPrimitive |}, s1).
Proof.
  intros Hne Hup Hcur Hrs Hsrc Hin Hk Hv.
  unfold convert_bulk, respond. simpl.
  rewrite bool_decide_eq_false_2 by done.
  unfold mbind, M_bind, bind at 1. rewrite Hup.
  unfold get_cache, bind at 1. unfold prop. rewrite Hcur.
  unfold mret, M_ret, ret, bind at 1. rewrite Hsrc. simpl.
  unfold through_usd, prop. rewrite Hrs.
  destruct (bool_decide (source = "USD")); simpl;
    unfold bind; simpl; by erewrite bulk_loop_abort.
Qed.

(** A body without [from] (or with an empty one) or without [amounts] is
    rejected before anything is fetched. *)
Lemma convert_bulk_malformed req e s :
  from req = None ∨ from req = Some "" ∨ amounts req = None →
  convert_bulk req e s
  = ({| status := 400; payload := ErrorBody InvalidRequestFormat |}, s).
Proof.
  unfold convert_bulk, respond.
  intros [Hf|[Hf|Ha]]; [by rewrite Hf | rewrite Hf | rewrite Ha].
  - by destruct (amounts req).
  - by destruct (from req).
Qed.

Lemma inherited_not_usd k : inherited k = true → k ≠ "USD".
Proof. intros Hk ->. vm_compute in Hk. discriminate Hk. Qed.

(** [C4], where the code departs from it.  The validity test of a code is
    the truthiness of [currencies[code]], and a property name of
    [Object.prototype] that is not a currency code passes it.  As a key of
    [amounts], with an amount that parses, such a name gets a conversion
    entry, whose rate is read from the rate table (NaN when the table has no
    such rate), where the claim has an error entry; and the key [__proto__]
    gets no entry at all.  As the source, such a name is accepted: the
    request answers 200, where the claim has it fail.  (The amounts are
    taken to convert to strings.) *)
Theorem convert_bulk_accepts_inherited_names (e : env) (s s1 : state)
  (source k : string) (v : json_value) (entries : list (string * json_value)) :
  source ≠ "" →
  NoDup entries.*1 →
  whole (currencyCache s) →
  updateCache "USD" e s = (inr tt, s1) →
  valid_code (currencyCache s1) source ∨ inherited source = true →
  inherited k = true →
  ¬ valid_code (currencyCache s1) k →
  (k, v) ∈ entries →
  printable entries →
  isNaN (parseFloat_value v) = false →
  ∃ results rs,
    convert_bulk {| from := Some source; amounts := Some entries |} e s
    = ({| status := 200; payload := BulkBody source results |}, s1)
    ∧ rates (currencyCache s1) = Some rs
    ∧ let a := parseFloat_value v in
      let fromToUsd :=
        if decide (source = "USD") then 1%float
        else (1 / to_number (rs !! source))%float in
      let r := (fromToUsd * to_number (rs !! k))%float in
      results !! k
      = if decide (k = "__proto__") then None else Some (Converted a r (a * r)).
Proof.
  intros Hne Hnd Hw Hup Hsrc Hk Hinv Hin Hprint Hnan.
  pose proof (updateCache_ok _ _ _ _ Hup) as ([cur Hcur] & _ & _).
  destruct (refreshed_rates _ _ _ _ Hw Hup) as [rs Hrs].
  rewrite (convert_bulk_run e s s1 source entries cur rs) by done.
  assert (truthy (read cur source) = true) as ->.
  { destruct Hsrc as [Hv|Hi]; [|by apply truthy_inherited].
    apply truthy_own. by apply (valid_code_lookup (currencyCache s1)). }
  cbv zeta. eexists _, rs. split; [reflexivity|]. split; [done|].
  case_decide as Hp.
  - subst k. by rewrite writes_lookup_proto.
  - rewrite (writes_lookup_entry _ _ _ k v) by done.
    unfold entry_for. rewrite truthy_inherited, Hnan by done. simpl.
    rewrite (bool_decide_eq_false_2 (k = "USD")) by by apply inherited_not_usd.
    repeat case_bool_decide; repeat case_decide; done.
Qed.

(** From USD, the amount 1 for the key [constructor]: a conversion whose
    rate and result are NaN, and no error entry. *)
Lemma convert_bulk_constructor_witness :
  ∃ results s1,
    convert_bulk
      {| from := Some "USD"; amounts := Some [("constructor", JNumber 1)] |}
      (at_time sample_provider 1000) initial_state
    = ({| status := 200; payload := BulkBody "USD" results |}, s1)
    ∧ results !! "constructor" = Some (Converted 1 nan nan).
Proof.
  set (s1 := (updateCache "USD" (at_time sample_provider 1000) initial_state).2).
  destruct (convert_bulk_accepts_inherited_names (at_time sample_provider 1000)
              initial_state s1 "USD" "constructor" (JNumber 1)
              [("constructor", JNumber 1)])
    as (results & rs & Hout & Hrs & Hk).
  - discriminate.
  - compute_done.
  - left. reflexivity.
  - reflexivity.
  - left. exists sample_currencies. split; [reflexivity|]. by eexists.
  - reflexivity.
  - intros (cur & [= <-] & Hk). by destruct Hk.
  - apply list_elem_of_here.
  - repeat constructor.
  - reflexivity.
  - injection Hrs as <-. exists results, s1. split; [exact Hout|]. exact Hk.
Defined.

(** [X17] A bulk conversion isolates the failures of its keys.  With a
    source that is a key of the currency list the request succeeds as a
    whole, and its [results] have no entry for a name that is not a key of
    [amounts]; for a key of [amounts] that is not a property name of
    [Object.prototype] they hold an error entry when the key is not a code
    of the currency list, an error entry when its amount does not parse to a
    number, and else the conversion of that amount.  With a source that is
    neither a key of the currency list nor a property name of
    [Object.prototype] the request fails with a validation error and has no
    results.  The amounts are numbers, strings, booleans, [null], arrays and
    objects that convert to strings. *)
Theorem convert_bulk_isolates_failures (e : env) (s s1 : state)
  (source : string) (entries : list (string * json_value)) :
  source ≠ "" →
  NoDup entries.*1 →
  printable entries →
  whole (currencyCache s) →
  updateCache "USD" e s = (inr tt, s1) →
  let c := currencyCache s1 in
  let out :=
    convert_bulk {| from := Some source; amounts := Some entries |} e s in
  (valid_code c source →
   ∃ results rs,
     out = ({| status := 200; payload := BulkBody source results |}, s1)
     ∧ rates c = Some rs
     ∧ (∀ k, k ∉ entries.*1 → results !! k = None)
     ∧ ∀ k v, (k, v) ∈ entries → ordinary k →
         let a := parseFloat_value v in
         let fromToUsd :=
           if decide (source = "USD") then 1%float
           else (1 / to_number (rs !! source))%float in
         let usdTo :=
           if decide (k = "USD") then 1%float else to_number (rs !! k) in
         let r := (fromToUsd * usdTo)%float in
         (¬ valid_code c k →
          results !! k = Some (EntryError InvalidCurrencyCode))
         ∧ (valid_code c k → isNaN a = true →
            results !! k = Some (EntryError AmountMustBeNumber))
         ∧ (valid_code c k → isNaN a = false →
            results !! k = Some (Converted a r (a * r))))
  ∧ (ordinary source → ¬ valid_code c source →
     out = ({| status := 400;
               payload := ErrorBody (InvalidSourceCurrency source) |}, s1)
     ∧ is_validation_error (InvalidSourceCurrency source) = true).
Proof.
  intros Hne Hnd Hp Hw Hup c out.
  pose proof (updateCache_ok _ _ _ _ Hup) as ([cur Hcur] & _ & _).
  destruct (refreshed_rates _ _ _ _ Hw Hup) as [rs Hrs].
  assert (∀ k, valid_code c k ↔ is_Some (cur !! k)) as Hvalid.
  { intros k. split; [by apply valid_code_lookup|]. intros ?. by exists cur. }
  subst out. rewrite (convert_bulk_run e s s1 source entries cur rs) by done.
  split.
  - intros Hsrc%Hvalid. rewrite truthy_own by done. cbv zeta.
    eexists _, rs. split; [reflexivity|]. split; [done|]. split.
    + intros k Hk. by rewrite writes_lookup_other.
    + intros k v Hin Hord.
      rewrite (writes_lookup_entry _ _ _ k v)
        by auto using ordinary_not_proto.
      unfold entry_for. rewrite truthy_ordinary by done. repeat split.
      * intros Hk. rewrite bool_decide_eq_false_2; [done|]. by rewrite <- Hvalid.
      * intros Hk%Hvalid Hnan. by rewrite bool_decide_eq_true_2, Hnan.
      * intros Hk%Hvalid Hnan. rewrite bool_decide_eq_true_2, Hnan by done.
        simpl. repeat case_bool_decide; repeat case_decide; done.
  - intros Hord Hsrc. rewrite truthy_ordinary by done.
    rewrite bool_decide_eq_false_2; [done|]. by rewrite <- Hvalid.
Qed.

(** From USD: 10 to EUR, 5 to the unknown ZZZ, and ["abc"] to JPY. *)
Lemma convert_bulk_witness :
  ∃ results s1,
    convert_bulk
      {| from := Some "USD";
         amounts := Some [("EUR", JNumber 10); ("ZZZ", JNumber 5);
                          ("JPY", JString "abc")] |}
      (at_time sample_provider 1000) initial_state
    = ({| status := 200; payload := BulkBody "USD" results |}, s1)
    ∧ results !! "EUR" = Some (Converted 10 49 490)
    ∧ results !! "ZZZ" = Some (EntryError InvalidCurrencyCode)
    ∧ results !! "JPY" = Some (EntryError AmountMustBeNumber)
    ∧ results !! "USD" = None.
Proof.
  set (entries := [("EUR", JNumber 10); ("ZZZ", JNumber 5);
                   ("JPY", JString "abc")]).
  set (s1 := (updateCache "USD" (at_time sample_provider 1000) initial_state).2).
  assert (∀ k, is_Some (sample_currencies !! k) → valid_code (currencyCache s1) k)
    as Hvalid by (intros k Hk; by exists sample_currencies).
  destruct (convert_bulk_isolates_failures (at_time sample_provider 1000)
              initial_state s1 "USD" entries) as [Hok _].
  - discriminate.
  - compute_done.
  - repeat constructor.
  - left. reflexivity.
  - reflexivity.
  - destruct Hok as (results & rs & Hout & Hrs & Hother & Hentries).
    { apply Hvalid. by eexists. }
    injection Hrs as <-.
    exists results, s1. split; [exact Hout|].
    split; [|split; [|split]].
    + apply (Hentries "EUR" (JNumber 10));
        [apply list_elem_of_here|reflexivity| |reflexivity].
      apply Hvalid. by eexists.
    + apply (Hentries "ZZZ" (JNumber 5));
        [apply list_elem_of_further, list_elem_of_here|reflexivity|].
      intros (cur & [= <-] & Hk). by destruct Hk.
    + apply (Hentries "JPY" (JString "abc"));
        [do 2 apply list_elem_of_further; apply list_elem_of_here
        |reflexivity| |reflexivity].
      apply Hvalid. by eexists.
    + apply Hother. compute_done.
Defined.

(** [X19] The amount of a bulk entry, by the JSON type of its value, for a
    source and a key that are codes of the currency list, when the amounts
    of the request convert to strings.  A number is taken as it is, [-0] as
    [0]; a string is read by [parseFloat]; [true], [false], [null], an object
    and the empty array are not numbers and get the error entry; any other
    array is read as its first item is.  The entry is the error entry when
    the amount read is NaN, and the conversion of that amount otherwise. *)
Theorem bulk_amount_by_type (e : env) (s s1 : state) (source k : string)
  (v : json_value) (entries : list (string * json_value)) :
  source ≠ "" →
  NoDup entries.*1 →
  whole (currencyCache s) →
  updateCache "USD" e s = (inr tt, s1) →
  valid_code (currencyCache s1) source →
  valid_code (currencyCache s1) k →
  k ≠ "__proto__" →
  (k, v) ∈ entries →
  printable entries →
  ∃ results rs,
    convert_bulk {| from := Some source; amounts := Some entries |} e s
    = ({| status := 200; payload := BulkBody source results |}, s1)
    ∧ rates (currencyCache s1) = Some rs
    ∧ let fromToUsd :=
        if decide (source = "USD") then 1%float
        else (1 / to_number (rs !! source))%float in
      let usdTo :=
        if decide (k = "USD") then 1%float else to_number (rs !! k) in
      let r := (fromToUsd * usdTo)%float in
      let entry a :=
        if isNaN a then EntryError AmountMustBeNumber
        else Converted a r (a * r) in
      results !! k
      = Some match v with
             | JNumber x => entry (if PrimFloat.is_zero x then PrimFloat.zero else x)
             | JString t => entry (parseFloat t)
             | JBool _ | JNull | JObject _ | JArray [] =>
                 EntryError AmountMustBeNumber
             | JArray (first :: _) => entry (parseFloat_value first)
             end.
Proof.
  intros Hne Hnd Hw Hup Hsrc Hk Hproto Hin Hprint.
  pose proof (updateCache_ok _ _ _ _ Hup) as ([cur Hcur] & _ & _).
  destruct (refreshed_rates _ _ _ _ Hw Hup) as [rs Hrs].
  rewrite (convert_bulk_run e s s1 source entries cur rs) by done.
  rewrite truthy_own by eauto using valid_code_lookup. cbv zeta.
  eexists _, rs. split; [reflexivity|]. split; [done|].
  rewrite (writes_lookup_entry _ _ _ k v) by done.
  unfold entry_for. rewrite truthy_own by eauto using valid_code_lookup.
  f_equal. cbn [negb].
  assert (∀ a,
    (if isNaN a then EntryError AmountMustBeNumber
     else Converted a
            ((if bool_decide (source = "USD") then 1
              else 1 / to_number (rs !! source))
             * (if bool_decide (k = "USD") then 1 else to_number (rs !! k)))
            (a * ((if bool_decide (source = "USD") then 1
                   else 1 / to_number (rs !! source))
                  * (if bool_decide (k = "USD") then 1
                     else to_number (rs !! k)))))%float
    = (if isNaN a then EntryError AmountMustBeNumber
       else Converted a
              ((if decide (source = "USD") then 1
                else 1 / to_number (rs !! source))
               * (if decide (k = "USD") then 1 else to_number (rs !! k)))
              (a * ((if decide (source = "USD") then 1
                     else 1 / to_number (rs !! source))
                    * (if decide (k = "USD") then 1
                       else to_number (rs !! k)))))%float) as Hentry.
  { intros a. repeat case_bool_decide; repeat case_decide; done. }
  destruct v as [x|t|b| |fields|[|first rest]]; cbn [parseFloat_value];
    try apply Hentry; done.
Qed.

(** The array [[5, "x"]] for EUR is read as 5. *)
Lemma bulk_amount_by_type_witness :
  ∃ results s1,
    convert_bulk
      {| from := Some "USD";
         amounts := Some [("EUR", JArray [JNumber 5; JString "x"]);
                          ("JPY", JNull)] |}
      (at_time sample_provider 1000) initial_state
    = ({| status := 200; payload := BulkBody "USD" results |}, s1)
    ∧ results !! "EUR" = Some (Converted 5 49 245).
Proof.
  set (s1 := (updateCache "USD" (at_time sample_provider 1000) initial_state).2).
  destruct (bulk_amount_by_type (at_time sample_provider 1000) initial_state
              s1 "USD" "EUR" (JArray [JNumber 5; JString "x"])
              [("EUR", JArray [JNumber 5; JString "x"]); ("JPY", JNull)])
    as (results & rs & Hout & Hrs & Hk).
  - discriminate.
  - compute_done.
  - left. reflexivity.
  - reflexivity.
  - exists sample_currencies. split; [reflexivity|]. by eexists.
  - exists sample_currencies. split; [reflexivity|]. by eexists.
  - discriminate.
  - apply list_elem_of_here.
  - repeat constructor.
  - injection Hrs as <-. exists results, s1. split; [exact Hout|]. exact Hk.
Defined.

(** [X22] One amount can fail the whole bulk conversion.  An amount that is
    an object with a property [toString] of its own, or an array with such
    an object among its items, does not convert to a string: when its key
    passes the validity test, [parseFloat] throws, and the request, whatever
    its other keys, answers 400 with the message of that TypeError and no
    results; the state is the one the refresh leaves. *)
Theorem convert_bulk_aborts_on_unprintable_amount (e : env) (s s1 : state)
  (source k : string) (v : json_value) (entries : list (string * json_value)) :
  source ≠ "" →
  whole (currencyCache s) →
  updateCache "USD" e s = (inr tt, s1) →
  listed (currencyCache s1) source →
  listed (currencyCache s1) k →
  (k, v) ∈ entries →
  unprintable v = true →
  convert_bulk {| from := Some source; amounts := Some entries |} e s
  = ({| status := 400; payload := ErrorBody NotPrimitive |}, s1).
Proof.
  intros Hne Hw Hup Hsrc Hk Hin Hv.
  pose proof (updateCache_ok _ _ _ _ Hup) as ([cur Hcur] & _ & _).
  destruct (refreshed_rates _ _ _ _ Hw Hup) as [rs Hrs].
  apply (convert_bulk_abort e s s1 source entries cur rs k v); try done.
  - by apply (listed_truthy (currencyCache s1)).
  - by apply (listed_truthy (currencyCache s1)).
Qed.

(** From USD: 10 to EUR, and for JPY the object [{ toString: 1 }]. *)
Lemma convert_bulk_aborts_witness :
  ∃ s1,
    convert_bulk
      {| from := Some "USD";
         amounts := Some [("EUR", JNumber 10);
                          ("JPY", JObject [("toString", JNumber 1)])] |}
      (at_time sample_provider 1000) initial_state
    = ({| status := 400; payload := ErrorBody NotPrimitive |}, s1).
Proof.
  exists (updateCache "USD" (at_time sample_provider 1000) initial_state).2.
  apply (convert_bulk_aborts_on_unprintable_amount
           (at_time sample_provider 1000) initial_state _ "USD" "JPY"
           (JObject [("toString", JNumber 1)])).
  - discriminate.
  - left. reflexivity.
  - reflexivity.
  - exists sample_currencies. split; reflexivity.
  - exists sample_currencies. split; reflexivity.
  - apply list_elem_of_further, list_elem_of_here.
  - reflexivity.
Defined.

End BulkFacts.

(* ===================================================================== *)
(** ** The history store *)
(* ===================================================================== *)

Module HistoryFacts.
Import JS Server Scenario ObjectFacts.

(** One append, by what [conversionHistoryStore[userId]] is: a list, to
    which the record is added; nothing, and the record is the first of a new
    list; an inherited property, and the handler throws. *)
Lemma post_history_cases user conv e s :
  post_history user conv e s
  = let uid := default "anonymous" user in
    let record := {| conversion := conv; timestamp := now e |} in
    let stored records :=
      ({| status := 200; payload := OkBody |},
       {| currencyCache := currencyCache s;
          conversionHistoryStore :=
            <[uid := take 20 (record :: records)]> (conversionHistoryStore s);
          requests := requests s |}) in
    match read (conversionHistoryStore s) uid with
    | Own records => stored records
    | Inherited => ({| status := 500; payload := ErrorBody NotAFunction |}, s)
    | Undefined => stored []
    end.
Proof.
  cbv zeta.
  unfold post_history, respond, mbind, M_bind, bind, get_store, set_store,
    Date_now, mret, M_ret, ret. simpl.
  destruct (read (conversionHistoryStore s) (default "anonymous" user))
    as [records| |] eqn:Hread; simpl.
  - by rewrite Hread.
  - by rewrite Hread.
  - rewrite (read_own _ _ []) by apply lookup_insert_eq. simpl.
    by rewrite insert_insert_eq.
Qed.

(** For a user id that is an ordinary name the append succeeds: the list of
    the user becomes the first twenty of the new record followed by the old
    list; nothing else changes. *)
Lemma post_history_run user conv e s :
  ordinary (default "anonymous" user) →
  post_history user conv e s
  = ({| status := 200; payload := OkBody |},
     {| currencyCache := currencyCache s;
        conversionHistoryStore :=
          <[default "anonymous" user :=
              take 20 ({| conversion := conv; timestamp := now e |}
                       :: default [] (conversionHistoryStore s
                                      !! default "anonymous" user))]>
            (conversionHistoryStore s);
        requests := requests s |}).
Proof.
  intros Hord. rewrite post_history_cases. cbv zeta.
  destruct (conversionHistoryStore s !! default "anonymous" user)
    as [records|] eqn:Hl.
  - by rewrite (read_own _ _ records).
  - by rewrite read_undefined.
Qed.

(** An append leaves the lists of the other users alone, whether it
    succeeds or not. *)
Lemma post_history_other user conv e s other :
  other ≠ default "anonymous" user →
  conversionHistoryStore (post_history user conv e s).2 !! other
  = conversionHistoryStore s !! other.
Proof.
  intros Hne. rewrite post_history_cases. cbv zeta.
  destruct (read _ _); simpl; by rewrite ?lookup_insert_ne.
Qed.

(** For a user id that is a property name of [Object.prototype], and has no
    list in the store, the append fails and changes nothing. *)
Lemma post_history_inherited user conv e s :
  inherited (default "anonymous" user) = true →
  conversionHistoryStore s !! default "anonymous" user = None →
  post_history user conv e s
  = ({| status := 500; payload := ErrorBody NotAFunction |}, s).
Proof.
  intros Hi Hl. rewrite post_history_cases. cbv zeta.
  by rewrite read_inherited.
Qed.

(** An append changes nothing, or it stores the list of its user. *)
Lemma post_history_state user conv e s :
  (post_history user conv e s).2 = s
  ∨ (post_history user conv e s).2
    = {| currencyCache := currencyCache s;
         conversionHistoryStore :=
           <[default "anonymous" user :=
               take 20 ({| conversion := conv; timestamp := now e |}
                        :: default [] (conversionHistoryStore s
                                       !! default "anonymous" user))]>
             (conversionHistoryStore s);
         requests := requests s |}.
Proof.
  rewrite post_history_cases. cbv zeta.
  destruct (read _ _) as [records| |] eqn:Hread; [right|by left|right].
  - by rewrite (read_Own_inv _ _ _ Hread).
  - by rewrite (read_Undefined_inv _ _ Hread).
Qed.

(** An append touches neither the cache nor the requests sent. *)
Lemma post_history_cache user conv e s :
  currencyCache (post_history user conv e s).2 = currencyCache s
  ∧ requests (post_history user conv e s).2 = requests s.
Proof. rewrite post_history_cases. cbv zeta. by destruct (read _ _). Qed.

Lemma take_app_take {A} (n : nat) (l k : list A) :
  take n (l ++ take n k) = take n (l ++ k).
Proof. rewrite !take_app, take_take. do 2 f_equal. lia. Qed.

Lemma records_for_cons uid a ops :
  records_for uid (a :: ops)
  = if decide (append_user a = uid)
    then append_record a :: records_for uid ops
    else records_for uid ops.
Proof. unfold records_for. rewrite filter_cons. by case_decide. Qed.

(** After a sequence of appends, for whatever users, the list of a user
    with an ordinary name is the first twenty of its records, newest first,
    followed by its old list. *)
Lemma appends_lookup p ops s uid :
  ordinary uid →
  conversionHistoryStore (appends p ops s) !! uid
  = match records_for uid ops with
    | [] => conversionHistoryStore s !! uid
    | rs => Some (take 20 (rev rs ++ default [] (conversionHistoryStore s !! uid)))
    end.
Proof.
  intros Hord. revert s. induction ops as [|a ops IH]; intros s; [done|].
  unfold appends in *. cbn [foldl]. rewrite IH. clear IH.
  rewrite records_for_cons. unfold append_user.
  destruct (decide (default "anonymous" a.1.1 = uid)) as [<-|Hne].
  - rewrite post_history_run by done.
    cbn [fst snd conversionHistoryStore now].
    rewrite lookup_insert_eq. cbn [from_option]. unfold id.
    fold (append_record a).
    destruct (records_for _ ops) as [|r' rest].
    + done.
    + f_equal. rewrite take_app_take. cbn [rev].
      by rewrite <- !app_assoc.
  - by rewrite post_history_other.
Qed.

(** [C8], where the code departs from it.  For a user id that is a property
    name of [Object.prototype], [conversionHistoryStore[userId]] is the
    inherited property, which is truthy and has no [unshift]: no list is
    stored for the user, and the append throws.  It answers 500 and the
    state is unchanged; after any sequence of appends for that user the
    state is still unchanged, where the claim has the records stored; and
    the history read back for that user is the inherited property, not a
    list. *)
Theorem post_history_fails_for_inherited_names (p : provider)
  (ops : list append) (s : state) (user : option string) (conv : Conversion)
  (e : env) :
  let uid := default "anonymous" user in
  inherited uid = true →
  conversionHistoryStore s !! uid = None →
  post_history user conv e s
  = ({| status := 500; payload := ErrorBody NotAFunction |}, s)
  ∧ (Forall (λ a, append_user a = uid) ops → appends p ops s = s)
  ∧ get_history user e s
    = ({| status := 200; payload := InheritedHistoryBody uid |}, s).
Proof.
  intros uid Hi Hl. split; [by apply post_history_inherited|]. split.
  - induction 1 as [|a ops Ha _ IH]; [done|].
    unfold appends in *. cbn [foldl].
    unfold append_user in Ha.
    rewrite post_history_inherited; [exact IH| |]; by rewrite Ha.
  - unfold get_history, respond, mbind, M_bind, bind, get_store, mret, M_ret,
      ret. simpl. fold uid. by rewrite read_inherited.
Qed.

(** Twenty-five appends for the user [constructor] on the empty store: each
    is answered 500 and nothing is stored. *)
Lemma post_history_constructor_witness :
  post_history (Some "constructor") sample_conversion
    (at_time sample_provider 1) initial_state
  = ({| status := 500; payload := ErrorBody NotAFunction |}, initial_state)
  ∧ appends sample_provider twenty_five_constructor initial_state
    = initial_state.
Proof.
  destruct (post_history_fails_for_inherited_names sample_provider
              twenty_five_constructor initial_state (Some "constructor")
              sample_conversion (at_time sample_provider 1))
    as (Hpost & Hall & _).
  - reflexivity.
  - reflexivity.
  - split; [exact Hpost|]. apply Hall. compute_done.
Defined.

(** [X18] For a user id that is not a property name of [Object.prototype],
    an append succeeds and puts the new record at the front of the list of
    the user, keeping the first 20 entries of that list; an append, whoever
    it is for, leaves the lists of the other users alone.  After any
    sequence of appends the list of such a user is the first 20 of its
    records, newest first, followed by what it held before; after 25
    appends for the user it holds exactly the 20 most recent records,
    newest first, the 5 oldest being gone. *)
Theorem history_keeps_twenty_newest (p : provider) (ops : list append)
  (s : state) (uid : string) (user : option string) (conv : Conversion)
  (e : env) :
  (ordinary (default "anonymous" user) →
   (post_history user conv e s).1 = {| status := 200; payload := OkBody |}
   ∧ conversionHistoryStore (post_history user conv e s).2
       !! default "anonymous" user
     = Some (take 20 ({| conversion := conv; timestamp := now e |}
                      :: default [] (conversionHistoryStore s
                                     !! default "anonymous" user))))
  ∧ (∀ other, other ≠ default "anonymous" user →
       conversionHistoryStore (post_history user conv e s).2 !! other
       = conversionHistoryStore s !! other)
  ∧ (ordinary uid → records_for uid ops ≠ [] →
     conversionHistoryStore (appends p ops s) !! uid
     = Some (take 20 (rev (records_for uid ops)
                      ++ default [] (conversionHistoryStore s !! uid))))
  ∧ (ordinary uid → length (records_for uid ops) = 25%nat →
     conversionHistoryStore (appends p ops s) !! uid
     = Some (rev (drop 5 (records_for uid ops)))
     ∧ length (rev (drop 5 (records_for uid ops))) = 20%nat).
Proof.
  split.
  { intros Hord. rewrite post_history_run by done. simpl.
    split; [done|]. apply lookup_insert_eq. }
  split; [by intros other Hne; apply post_history_other|].
  split.
  - intros Hord Hne. rewrite appends_lookup by done.
    by destruct (records_for uid ops).
  - intros Hord Hlen. rewrite appends_lookup by done.
    assert (take 20 (rev (records_for uid ops)
                     ++ default [] (conversionHistoryStore s !! uid))
            = rev (drop 5 (records_for uid ops))) as Heq.
    { rewrite take_app_le by (rewrite length_rev; lia).
      rewrite <- (take_drop 5 (records_for uid ops)) at 1.
      rewrite rev_app_distr, take_app_length'; [done|].
      rewrite length_rev, length_drop. lia. }
    split; [|rewrite length_rev, length_drop; lia].
    destruct (records_for uid ops) eqn:Hrs; [done|]. by rewrite Heq.
Qed.

(** Twenty-five appends at the times 1 to 25: the records of the times 25
    down to 6 are left. *)
Lemma history_twenty_five_witness :
  timestamp
  <$> default []
        (conversionHistoryStore
           (appends sample_provider twenty_five initial_state) !! "anonymous")
  = [25; 24; 23; 22; 21; 20; 19; 18; 17; 16;
     15; 14; 13; 12; 11; 10; 9; 8; 7; 6].
Proof.
  destruct (history_keeps_twenty_newest sample_provider twenty_five
              initial_state "anonymous" None sample_conversion
              (at_time sample_provider 0)) as (_ & _ & _ & Hlast).
  destruct Hlast as [-> _]; reflexivity.
Defined.

End HistoryFacts.

(* ===================================================================== *)
(** ** Interleaved refreshes *)
(* ===================================================================== *)

Module AsyncFacts.
Import JS Server Async Scenario CacheFacts.

(** A call before its [await] changes neither the objects nor the variable:
    the calls that follow it see the same snapshot. *)
Lemma call_snapshot base t w : snapshot (call base t w) = snapshot w.
Proof.
  unfold call. destruct (stale _ _); [done|]. by destruct (negb _).
Qed.

Lemma calls_snapshot cs w : snapshot (calls cs w) = snapshot w.
Proof.
  revert w. induction cs as [|c cs IH]; intros w; [done|].
  unfold calls in *. simpl. by rewrite IH, call_snapshot.
Qed.

(** Callers of a stale snapshot that arrive before any answer: each sends
    its two requests and is in flight. *)
Lemma calls_stale cs w :
  Forall (λ c, stale c.2 (snapshot w) = true) cs →
  in_flight (calls cs w) = in_flight w ++ ((λ c, AwaitAll c.1 c.2) <$> cs)
  ∧ sent (calls cs w)
    = sent w ++ (cs ≫= λ c, [FetchCurrencies; FetchRates c.1]).
Proof.
  revert w. induction cs as [|c cs IH]; intros w Hst.
  { simpl. by rewrite !app_nil_r. }
  apply Forall_cons in Hst as [Hc Hcs].
  unfold calls in *. cbn [foldl].
  destruct (IH (call c.1 c.2 w)) as [Hfl Hsent].
  { by rewrite call_snapshot. }
  rewrite Hfl, Hsent. unfold call. rewrite Hc. simpl.
  by rewrite <- !app_assoc.
Qed.

Lemma snapshot_alter_binding f w :
  (binding w < length (heap w))%nat →
  default empty_cache (alter f (binding w) (heap w) !! binding w)
  = f (snapshot w).
Proof.
  intros Hb. unfold snapshot. rewrite list_lookup_alter_eq.
  destruct (heap w !! binding w) eqn:Hl; [done|].
  apply lookup_ge_None in Hl. lia.
Qed.

(** Two callers on the empty cache: both send their requests, and two
    refreshes are in flight.  And with three overlapping refreshes, the
    snapshot ends with the rate table fetched for USD under the base
    currency EUR. *)
Lemma refreshes_overlap :
  (∃ w,
     run [Call "USD" 1000; Call "USD" 1001] initial = Some w
     ∧ in_flight w = [AwaitAll "USD" 1000; AwaitAll "USD" 1001]
     ∧ sent w = [FetchCurrencies; FetchRates "USD";
                 FetchCurrencies; FetchRates "USD"]
     ∧ ¬ single_flight w)
  ∧ (∃ w,
       run overlapping_refreshes initial = Some w
       ∧ in_flight w = []
       ∧ baseCurrency (snapshot w) = Some "EUR"
       ∧ rates (snapshot w) = Some sample_rates
       ∧ sample_rates ≠ sample_rates_eur).
Proof.
  split.
  - eexists. split; [reflexivity|]. do 2 (split; [reflexivity|]).
    unfold single_flight. simpl. lia.
  - eexists. split; [vm_compute; reflexivity|]. do 3 (split; [reflexivity|]).
    intros H%(f_equal (λ rs : rate_table, Prim2SF (to_number (rs !! "EUR")))).
    vm_compute in H. discriminate H.
Qed.

(** [C9], as the code has it.  Callers are not coalesced: a call that sees a
    stale snapshot, or one with another base currency, sends its own requests
    and waits for them, whatever is already in flight; so [n] callers of a
    stale snapshot that arrive before any answer leave [n] refreshes in flight
    and [2n] requests sent.  A refresh that runs with nothing in flight and
    nothing interleaved is the sequential [updateCache]: its snapshot, with
    [rates] and [baseCurrency] from the same request, and its requests. *)
Theorem refreshes_are_not_coalesced (w : world) (base : string) (t : Z)
  (cs : list (string * Z)) :
  (stale t (snapshot w) = true →
   call base t w
   = {| heap := heap w; binding := binding w;
        in_flight := in_flight w ++ [AwaitAll base t];
        sent := sent w ++ [FetchCurrencies; FetchRates base] |})
  ∧ (stale t (snapshot w) = false →
     baseCurrency (snapshot w) ≠ Some base →
     call base t w
     = {| heap := heap w; binding := binding w;
          in_flight := in_flight w ++ [AwaitRates base t (binding w)];
          sent := sent w ++ [FetchRates base] |})
  ∧ (Forall (λ c, stale c.2 (snapshot w) = true) cs →
     length (in_flight (calls cs w)) = (length (in_flight w) + length cs)%nat
     ∧ length (sent (calls cs w)) = (length (sent w) + 2 * length cs)%nat)
  ∧ (∀ (s : state) (p : provider),
       quiescent s w →
       let e := {| upstream := p; now := t |} in
       let s' := (updateCache base e s).2 in
       let w' := default (call base t w)
                   (settle 0 (currency_response p) (rates_response p base)
                      (call base t w)) in
       snapshot w' = currencyCache s'
       ∧ in_flight w' = []
       ∧ sent w' = requests s').
Proof.
  split; [|split; [|split]].
  - intros Hst. unfold call. by rewrite Hst.
  - intros Hst Hb. unfold call. by rewrite Hst, bool_decide_eq_false_2.
  - intros [-> ->]%calls_stale.
    rewrite !length_app, length_fmap. split; [done|]. f_equal.
    clear. induction cs as [|c cs' IH]; [done|].
    cbn [mbind list_bind length app]. rewrite IH. lia.
  - intros s p (Hsnap & Hfl & Hsent & Hb). cbv zeta.
    rewrite updateCache_cases. cbv zeta. simpl.
    unfold call. rewrite Hsnap.
    destruct (stale t (currencyCache s)) eqn:Hst.
    + unfold settle. simpl. rewrite Hfl. simpl.
      destruct (currency_response p), (rates_response p base); simpl;
        rewrite ?Hsent; try done.
      unfold snapshot. simpl. by rewrite lookup_app_r, Nat.sub_diag.
    + destruct (bool_decide (baseCurrency (currencyCache s) = Some base)); simpl.
      * unfold settle. rewrite Hfl. simpl. by rewrite Hfl.
      * unfold settle. simpl. rewrite Hfl. simpl.
        destruct (rates_response p base); simpl; rewrite ?Hsent; try done.
        split; [|done]. unfold snapshot at 1. simpl.
        rewrite list_alter_alter_eq.
        rewrite (snapshot_alter_binding _ w Hb). by rewrite Hsnap.
Qed.

(** Three callers on the empty cache. *)
Lemma refreshes_are_not_coalesced_witness :
  length (in_flight (calls [("USD", 1000); ("USD", 1001); ("EUR", 1002)] initial))
  = 3%nat
  ∧ length (sent (calls [("USD", 1000); ("USD", 1001); ("EUR", 1002)] initial))
    = 6%nat.
Proof.
  apply (refreshes_are_not_coalesced initial "USD" 1000
           [("USD", 1000); ("USD", 1001); ("EUR", 1002)]).
  repeat constructor.
Defined.

End AsyncFacts.

(* ===================================================================== *)
(** ** The snapshot stays whole under every handler *)
(* ===================================================================== *)

Module Invariants.
Import JS Server Scenario CacheFacts HistoryFacts.

Lemma read_only_ret {A} (a : A) : read_only (mret a).
Proof. done. Qed.

Lemma read_only_throw {A} (err : error) : read_only (@throw A err).
Proof. done. Qed.

Lemma read_only_get_cache : read_only get_cache.
Proof. done. Qed.

Lemma read_only_bind {A B} (m : M A) (k : A → M B) :
  read_only m → (∀ a, read_only (k a)) → read_only (m ≫= k).
Proof.
  intros Hm Hk e s. unfold mbind, M_bind, bind.
  specialize (Hm e s). destruct (m e s) as [[err|a] s1]; simpl in *; subst.
  - done.
  - apply Hk.
Qed.

Lemma read_only_prop {V} (table : option (gmap string V)) key :
  read_only (prop table key).
Proof. by destruct table. Qed.

Lemma read_only_through_usd f usdRates code :
  read_only (through_usd f usdRates code).
Proof.
  unfold through_usd. case_bool_decide; [done|].
  apply read_only_bind; [apply read_only_prop | done].
Qed.

Lemma read_only_bulk_loop c f entries acc :
  read_only (bulk_loop c f entries acc).
Proof.
  revert acc. induction entries as [|[k v] rest IH]; intros acc; [done|].
  simpl. apply read_only_bind; [apply read_only_prop|]. intros known.
  destruct (negb _); [apply IH|].
  apply read_only_bind; [unfold parseFloat_any; by destruct (unprintable v)|].
  intros a. destruct (isNaN _); [apply IH|].
  apply read_only_bind; [apply read_only_through_usd|]. intros r. apply IH.
Qed.

(** A handler that refreshes the cache and then only reads leaves the state
    of the refresh. *)
Lemma respond_after_update code base (k : M body) e s :
  read_only k →
  (respond code (updateCache base;; k) e s).2 = (updateCache base e s).2.
Proof.
  intros Hk. unfold respond, mbind, M_bind, bind.
  destruct (updateCache base e s) as [[err|[]] s1]; simpl; [done|].
  specialize (Hk e s1). by destruct (k e s1) as [[err|b] s2].
Qed.

Lemma respond_read_only code (k : M body) e s :
  read_only k → (respond code k e s).2 = s.
Proof.
  intros Hk. unfold respond. specialize (Hk e s).
  by destruct (k e s) as [[err|b] s2].
Qed.

Lemma convert_state from to amount e s :
  (convert from to amount e s).2
  = if isNaN (parseFloat amount) then s else (updateCache "USD" e s).2.
Proof.
  unfold convert. destruct (isNaN _).
  - by apply respond_read_only.
  - apply respond_after_update.
    apply read_only_bind; [done|]. intros c.
    apply read_only_bind; [apply read_only_prop|]. intros kf.
    apply read_only_bind; [apply read_only_prop|]. intros kt.
    destruct (_ || _); [done|].
    apply read_only_bind; [apply read_only_through_usd|]. intros x.
    apply read_only_bind; [apply read_only_through_usd|]. done.
Qed.

Lemma convert_bulk_state req e s :
  (convert_bulk req e s).2 = s
  ∨ (convert_bulk req e s).2 = (updateCache "USD" e s).2.
Proof.
  unfold convert_bulk.
  destruct (from req) as [source|], (amounts req) as [entries|];
    try (left; by apply respond_read_only).
  case_bool_decide; [left; by apply respond_read_only|].
  right. apply respond_after_update.
  apply read_only_bind; [done|]. intros c.
  apply read_only_bind; [apply read_only_prop|]. intros known.
  destruct (negb _); [done|].
  apply read_only_bind; [apply read_only_through_usd|]. intros x.
  apply read_only_bind; [apply read_only_bulk_loop|]. done.
Qed.

(** From the empty cache on, under every handler, the snapshot is absent or
    has its four fields. *)
Theorem handlers_keep_whole (e : env) (s : state) :
  whole (currencyCache initial_state)
  ∧ (whole (currencyCache s) →
     whole (currencyCache (get_currencies e s).2)
     ∧ (∀ base, whole (currencyCache (get_rates base e s).2))
     ∧ (∀ from to amount, whole (currencyCache (convert from to amount e s).2))
     ∧ (∀ req, whole (currencyCache (convert_bulk req e s).2))
     ∧ (∀ user conv, whole (currencyCache (post_history user conv e s).2))
     ∧ (∀ user, whole (currencyCache (get_history user e s).2))
     ∧ (∀ user, whole (currencyCache (delete_history user e s).2))).
Proof.
  split; [by left|]. intros Hw.
  split; [|split; [|split; [|split; [|split; [|split]]]]].
  - unfold get_currencies. rewrite respond_after_update.
    + by apply updateCache_whole.
    + by apply read_only_bind.
  - intros base. unfold get_rates. rewrite respond_after_update.
    + by apply updateCache_whole.
    + by apply read_only_bind.
  - intros from to amount. rewrite convert_state.
    destruct (isNaN _); [done|]. by apply updateCache_whole.
  - intros req. destruct (convert_bulk_state req e s) as [-> | ->]; [done|].
    by apply updateCache_whole.
  - intros user conv. by rewrite (proj1 (post_history_cache user conv e s)).
  - done.
  - done.
Qed.

End Invariants.

(* ===================================================================== *)
(** ** The history routes, and the shape of the state under any traffic *)
(* ===================================================================== *)

Module TrafficFacts.
Import JS Server Scenario Traffic ObjectFacts CacheFacts HistoryFacts Invariants.

(** A listing changes nothing, and what it answers depends on the store at
    its user alone. *)
Lemma get_history_state user e s : (get_history user e s).2 = s.
Proof. done. Qed.

Lemma get_history_lookup user e e' s s' :
  conversionHistoryStore s !! default "anonymous" user
  = conversionHistoryStore s' !! default "anonymous" user →
  (get_history user e s).1 = (get_history user e' s').1.
Proof.
  intros Hl.
  unfold get_history, respond, mbind, M_bind, bind, get_store, mret, M_ret, ret.
  simpl. unfold read. by rewrite Hl.
Qed.

(** For a user id that is an ordinary name the listing is the list of the
    user, empty when there is none. *)
Lemma get_history_run user e s :
  ordinary (default "anonymous" user) →
  get_history user e s
  = ({| status := 200;
        payload := HistoryBody
                     (default [] (conversionHistoryStore s
                                  !! default "anonymous" user)) |}, s).
Proof.
  intros Hord.
  unfold get_history, respond, mbind, M_bind, bind, get_store, mret, M_ret, ret.
  simpl. unfold read. rewrite Hord.
  by destruct (conversionHistoryStore s !! default "anonymous" user).
Qed.

Lemma delete_history_run user e s :
  delete_history user e s
  = ({| status := 200; payload := OkBody |},
     {| currencyCache := currencyCache s;
        conversionHistoryStore :=
          delete (default "anonymous" user) (conversionHistoryStore s);
        requests := requests s |}).
Proof. done. Qed.

(** [X1] Reading back an append, for a user id that is not a property name
    of [Object.prototype].  After an append for the user, the history
    returned for that user is the new record followed by the history that was
    returned before, cut to 20 records; a request without [userId] and one
    with the [userId] ["anonymous"] read the same list; the history returned
    for any other user is as before. *)
Theorem post_then_get (user reader : option string) (conv : Conversion)
  (e e' : env) (s : state) :
  ordinary (default "anonymous" user) →
  let s1 := (post_history user conv e s).2 in
  ∃ before,
    get_history user e' s = ({| status := 200; payload := HistoryBody before |}, s)
    ∧ get_history user e' s1
      = ({| status := 200;
            payload := HistoryBody
                         (take 20 ({| conversion := conv; timestamp := now e |}
                                   :: before)) |}, s1)
    ∧ (default "anonymous" reader = default "anonymous" user →
       (get_history reader e' s1).1 = (get_history user e' s1).1)
    ∧ (default "anonymous" reader ≠ default "anonymous" user →
       (get_history reader e' s1).1 = (get_history reader e' s).1).
Proof.
  intros Hord. cbv zeta.
  eexists. split; [by apply get_history_run|].
  split; [|split].
  - rewrite get_history_run by done. do 2 f_equal.
    rewrite post_history_run by done. simpl. by rewrite lookup_insert_eq.
  - intros Heq. unfold get_history, respond, mbind, M_bind, bind, get_store,
      mret, M_ret, ret. simpl. by rewrite Heq.
  - intros Hne. apply get_history_lookup. by apply post_history_other.
Qed.

(** An append for the user [alice], read back by her and by [bob]. *)
Lemma post_then_get_witness :
  let e := at_time sample_provider 7 in
  let s1 := (post_history (Some "alice") sample_conversion e initial_state).2 in
  get_history (Some "alice") e s1
  = ({| status := 200;
        payload := HistoryBody
                     [{| conversion := sample_conversion; timestamp := 7 |}] |},
     s1)
  ∧ (get_history (Some "bob") e s1).1
    = {| status := 200; payload := HistoryBody [] |}.
Proof.
  cbv zeta.
  destruct (post_then_get (Some "alice") (Some "bob") sample_conversion
              (at_time sample_provider 7) (at_time sample_provider 7)
              initial_state)
    as (before & Hbefore & Hafter & _ & Hother).
  - reflexivity.
  - injection Hbefore as <-. split; [exact Hafter|].
    rewrite Hother; [reflexivity|discriminate].
Defined.

(** [X2] Clearing a history.  The request succeeds whether the user has a
    history or not; the history returned afterwards for the user, when the
    user id is not a property name of [Object.prototype], is empty; the
    histories of the other users are as before; clearing what is not there
    changes nothing, and clearing twice is clearing once. *)
Theorem delete_then_get (user reader : option string) (e e' : env) (s : state) :
  let s1 := (delete_history user e s).2 in
  (delete_history user e s).1 = {| status := 200; payload := OkBody |}
  ∧ (ordinary (default "anonymous" user) →
     get_history user e' s1
     = ({| status := 200; payload := HistoryBody [] |}, s1))
  ∧ (default "anonymous" reader ≠ default "anonymous" user →
     (get_history reader e' s1).1 = (get_history reader e' s).1)
  ∧ (conversionHistoryStore s !! default "anonymous" user = None → s1 = s)
  ∧ (delete_history user e' s1).2 = s1.
Proof.
  cbv zeta. rewrite !delete_history_run. cbn [fst snd].
  split; [done|]. split; [|split; [|split]].
  - intros Hord. rewrite get_history_run by done.
    cbn [conversionHistoryStore]. by rewrite lookup_delete_eq.
  - intros Hne. apply get_history_lookup.
    cbn [conversionHistoryStore]. by rewrite lookup_delete_ne.
  - intros Hnone. destruct s as [c h rq]. simpl in *. f_equal.
    by apply delete_id.
  - cbn [currencyCache conversionHistoryStore requests]. f_equal.
    by rewrite delete_delete_eq.
Qed.

(** The anonymous user appends a record, then clears: the listing is
    empty. *)
Lemma delete_then_get_witness :
  let e := at_time sample_provider 7 in
  let s0 := (post_history None sample_conversion e initial_state).2 in
  let s1 := (delete_history None e s0).2 in
  get_history None e s1 = ({| status := 200; payload := HistoryBody [] |}, s1).
Proof.
  cbv zeta.
  apply (delete_then_get None None (at_time sample_provider 7)
           (at_time sample_provider 7)
           (post_history None sample_conversion (at_time sample_provider 7)
              initial_state).2).
  reflexivity.
Defined.

(** *** Frames of the handlers *)

Lemma updateCache_store e s base :
  conversionHistoryStore (updateCache base e s).2 = conversionHistoryStore s.
Proof.
  destruct (updateCache base e s) as [[err|[]] s1] eqn:Hup; simpl.
  - by apply updateCache_error in Hup as (_ & ? & _).
  - by apply updateCache_ok in Hup as (_ & _ & ?).
Qed.

Lemma handle_cache_side_store r e s :
  is_history r = false →
  conversionHistoryStore (handle r e s).2 = conversionHistoryStore s.
Proof.
  destruct r; try done; intros _; simpl.
  - unfold get_currencies. rewrite respond_after_update; [apply updateCache_store|].
    by apply read_only_bind.
  - unfold get_rates. rewrite respond_after_update; [apply updateCache_store|].
    by apply read_only_bind.
  - rewrite convert_state. destruct (isNaN _); [done|]. apply updateCache_store.
  - destruct (convert_bulk_state req e s) as [-> | ->]; [done|].
    apply updateCache_store.
Qed.

Lemma handle_cache_side_whole r e s :
  is_history r = false →
  whole (currencyCache s) → whole (currencyCache (handle r e s).2).
Proof.
  intros _ Hw. destruct (handlers_keep_whole e s) as [_ H].
  destruct (H Hw) as (H1 & H2 & H3 & H4 & H5 & H6 & H7).
  destruct r; simpl; auto.
Qed.

Lemma handle_history_side r e s :
  is_history r = true →
  currencyCache (handle r e s).2 = currencyCache s
  ∧ requests (handle r e s).2 = requests s.
Proof.
  destruct r; try done; intros _; cbn [handle]; try done.
  apply post_history_cache.
Qed.

Lemma handle_history_bounded r e s :
  bounded_history (conversionHistoryStore s) →
  bounded_history (conversionHistoryStore (handle r e s).2).
Proof.
  intros Hb. destruct (is_history r) eqn:Hr.
  - destruct r; try done; cbn [handle].
    + destruct (post_history_state user conv e s) as [-> | ->]; [done|].
      simpl. intros u l.
      destruct (decide (u = default "anonymous" user)) as [->|Hne].
      * rewrite lookup_insert_eq. intros [= <-].
        cbn [take length]. rewrite length_take. lia.
      * rewrite lookup_insert_ne by done. apply Hb.
    + rewrite delete_history_run. simpl. intros u l.
      destruct (decide (u = default "anonymous" user)) as [->|Hne].
      * by rewrite lookup_delete_eq.
      * rewrite lookup_delete_ne by done. apply Hb.
  - by rewrite handle_cache_side_store.
Qed.

(** [X3] Whatever requests are served, in whatever order and with whatever
    answers of the provider: the cache stays absent or with its four fields,
    and every list of the history store stays between 1 and 20 records
    long. *)
Theorem serve_keeps_shape (arrivals : list (request * env)) (s : state) :
  whole (currencyCache s) →
  bounded_history (conversionHistoryStore s) →
  whole (currencyCache (serve arrivals s).2)
  ∧ bounded_history (conversionHistoryStore (serve arrivals s).2).
Proof.
  revert s. induction arrivals as [|[r e] rest IH]; intros s Hw Hb; [done|].
  simpl. destruct (handle r e s) as [resp s1] eqn:Hs1.
  destruct (serve rest s1) as [resps s2] eqn:Hs2. simpl.
  assert (s1 = (handle r e s).2) as Heq1 by by rewrite Hs1.
  assert (s2 = (serve rest s1).2) as -> by by rewrite Hs2.
  apply IH; subst s1.
  - destruct (is_history r) eqn:Hr.
    + by destruct (handle_history_side r e s Hr) as [-> _].
    + by apply handle_cache_side_whole.
  - by apply handle_history_bounded.
Qed.

(** An append, a conversion whose refresh fails, a clearing and a listing,
    from the start of the process. *)
Lemma serve_keeps_shape_witness :
  let arrivals :=
    [ (PostHistory None sample_conversion, at_time sample_provider 1000);
      (Convert "USD" "EUR" "2", at_time failing_provider 2000);
      (DeleteHistory (Some "nobody"), at_time sample_provider 3000);
      (GetCurrencies, at_time sample_provider 4000) ] in
  whole (currencyCache (serve arrivals initial_state).2)
  ∧ bounded_history (conversionHistoryStore (serve arrivals initial_state).2).
Proof.
  apply serve_keeps_shape.
  - by left.
  - intros user l Hl. cbn in Hl. by rewrite lookup_empty in Hl.
Defined.

(** *** Newest first *)

Lemma newest_first_weaken T T' h :
  T ≤ T' → newest_first_until T h → newest_first_until T' h.
Proof.
  intros HT Hh user l Hl. destruct (Hh user l Hl) as [Hs Hf].
  split; [done|]. eapply Forall_impl; [done|]. simpl. lia.
Qed.

Lemma handle_newest_first r e s T :
  T ≤ now e →
  newest_first_until T (conversionHistoryStore s) →
  newest_first_until (now e) (conversionHistoryStore (handle r e s).2).
Proof.
  intros HT Hh. destruct (is_history r) eqn:Hr.
  - destruct r; try done; cbn [handle].
    + destruct (post_history_state user conv e s) as [-> | ->];
        [by apply (newest_first_weaken T)|].
      simpl. intros u l.
      destruct (decide (u = default "anonymous" user)) as [->|Hne].
      * rewrite lookup_insert_eq. intros [= <-].
        assert (StronglySorted (λ x y, y ≤ x)
                  (timestamps (default [] (conversionHistoryStore s
                                           !! default "anonymous" user)))
                ∧ Forall (λ t, t ≤ T)
                    (timestamps (default [] (conversionHistoryStore s
                                             !! default "anonymous" user))))
          as [Hs Hf].
        { destruct (conversionHistoryStore s !! default "anonymous" user)
            as [old|] eqn:Hold; simpl.
          - by apply (Hh _ _ Hold).
          - split; constructor. }
        set (old := default [] _) in *.
        unfold timestamps in *. cbn [take fmap list_fmap timestamp].
        rewrite fmap_take. split.
        -- apply StronglySorted_cons. split.
           ++ apply Forall_take. eapply Forall_impl; [exact Hf|]. simpl. lia.
           ++ rewrite <- (take_drop 19 (timestamp <$> old)) in Hs.
              by apply StronglySorted_app_1_l in Hs.
        -- constructor; [lia|]. apply Forall_take.
           eapply Forall_impl; [exact Hf|]. simpl. lia.
      * rewrite lookup_insert_ne by done. intros Hl.
        by apply (newest_first_weaken T (now e) _ HT Hh u).
    + by apply (newest_first_weaken T).
    + rewrite delete_history_run. simpl. intros u l.
      destruct (decide (u = default "anonymous" user)) as [->|Hne].
      * by rewrite lookup_delete_eq.
      * rewrite lookup_delete_ne by done. intros Hl.
        by apply (newest_first_weaken T (now e) _ HT Hh u).
  - rewrite handle_cache_side_store by done. by apply (newest_first_weaken T).
Qed.

Lemma serve_newest_first_until arrivals s T :
  newest_first_until T (conversionHistoryStore s) →
  StronglySorted Z.le (T :: ((λ a, now a.2) <$> arrivals)) →
  ∃ T', newest_first_until T' (conversionHistoryStore (serve arrivals s).2).
Proof.
  revert s T. induction arrivals as [|[r e] rest IH]; intros s T Hh Hsorted.
  { by exists T. }
  simpl. destruct (handle r e s) as [resp s1] eqn:Hs1.
  destruct (serve rest s1) as [resps s2] eqn:Hs2. simpl.
  assert (s1 = (handle r e s).2) as Heq1 by by rewrite Hs1.
  assert (s2 = (serve rest s1).2) as -> by by rewrite Hs2.
  simpl in Hsorted.
  apply StronglySorted_cons in Hsorted as [Hle Hsorted].
  apply Forall_cons in Hle as [Hle _].
  apply (IH s1 (now e)); [|done].
  subst s1. by apply (handle_newest_first r e s T).
Qed.

(** [X4] When the requests are handled at times that do not decrease, every
    list of the history store is sorted newest first: the timestamps of its
    records do not increase along the list.  (The lists the state starts with
    are sorted and not younger than the first request.) *)
Theorem serve_keeps_newest_first (arrivals : list (request * env)) (s : state)
  (T : Z) (user : string) (l : list ConversionRecord) :
  newest_first_until T (conversionHistoryStore s) →
  StronglySorted Z.le (T :: ((λ a, now a.2) <$> arrivals)) →
  conversionHistoryStore (serve arrivals s).2 !! user = Some l →
  StronglySorted (λ x y, y ≤ x) (timestamps l).
Proof.
  intros Hh Hsorted Hl.
  destruct (serve_newest_first_until arrivals s T Hh Hsorted) as [T' HT'].
  by apply (HT' user l).
Qed.

(** Three appends of one user and one of another, at the times 5, 5, 7
    and 9. *)
Lemma serve_keeps_newest_first_witness :
  let arrivals :=
    [ (PostHistory None sample_conversion, at_time sample_provider 5);
      (PostHistory None sample_conversion, at_time failing_provider 5);
      (PostHistory (Some "ada") sample_conversion, at_time sample_provider 7);
      (PostHistory None sample_conversion, at_time sample_provider 9) ] in
  conversionHistoryStore (serve arrivals initial_state).2 !! "anonymous"
  = Some [ {| conversion := sample_conversion; timestamp := 9 |};
           {| conversion := sample_conversion; timestamp := 5 |};
           {| conversion := sample_conversion; timestamp := 5 |} ]
  ∧ StronglySorted (λ x y, y ≤ x) [9; 5; 5].
Proof.
  split; [reflexivity|].
  apply (serve_keeps_newest_first
           [ (PostHistory None sample_conversion, at_time sample_provider 5);
             (PostHistory None sample_conversion, at_time failing_provider 5);
             (PostHistory (Some "ada") sample_conversion,
              at_time sample_provider 7);
             (PostHistory None sample_conversion, at_time sample_provider 9) ]
           initial_state 0 "anonymous"
           [ {| conversion := sample_conversion; timestamp := 9 |};
             {| conversion := sample_conversion; timestamp := 5 |};
             {| conversion := sample_conversion; timestamp := 5 |} ]).
  - intros user l Hl. cbn in Hl. by rewrite lookup_empty in Hl.
  - repeat constructor; simpl; lia.
  - reflexivity.
Defined.

(** *** The cache side and the history side do not meet *)

Lemma oblivious_ret {A} (a : A) : store_oblivious (mret a).
Proof. done. Qed.

Lemma oblivious_throw {A} (err : error) : store_oblivious (@throw A err).
Proof. done. Qed.

Lemma oblivious_bind {A B} (m : M A) (k : A → M B) :
  store_oblivious m → (∀ a, store_oblivious (k a)) → store_oblivious (m ≫= k).
Proof.
  intros Hm Hk e s h. unfold mbind, M_bind, bind. rewrite Hm.
  destruct (m e s) as [[err|a] s1]; simpl; [done|]. apply Hk.
Qed.

Lemma oblivious_answer {A} (response : provider → option A) err :
  store_oblivious (answer response err).
Proof. intros e s h. unfold answer. by destruct (response _). Qed.

Lemma oblivious_fetchAllCurrencies : store_oblivious fetchAllCurrencies.
Proof.
  apply oblivious_bind; [done|]. intros _. apply oblivious_answer.
Qed.

Lemma oblivious_fetchAllRates base : store_oblivious (fetchAllRates base).
Proof.
  apply oblivious_bind; [done|]. intros _. apply oblivious_answer.
Qed.

Lemma oblivious_Promise_all {A B} (a : M A) (b : M B) :
  store_oblivious a → store_oblivious b → store_oblivious (Promise_all a b).
Proof.
  intros Ha Hb e s h. unfold Promise_all. rewrite Ha.
  destruct (a e s) as [ra s1]. simpl. rewrite Hb.
  destruct (b e s1) as [rb s2]. simpl.
  by destruct ra, rb.
Qed.

Lemma oblivious_updateCache base : store_oblivious (updateCache base).
Proof.
  unfold updateCache.
  apply oblivious_bind; [done|]. intros t.
  apply oblivious_bind; [done|]. intros c.
  destruct (stale t c).
  - apply oblivious_bind.
    + apply oblivious_Promise_all;
        [apply oblivious_fetchAllCurrencies | apply oblivious_fetchAllRates].
    + by intros [cur rs].
  - destruct (negb _); [|done].
    apply oblivious_bind; [apply oblivious_fetchAllRates | done].
Qed.

Lemma oblivious_prop {V} (table : option (gmap string V)) key :
  store_oblivious (prop table key).
Proof. by destruct table. Qed.

Lemma oblivious_through_usd f usdRates code :
  store_oblivious (through_usd f usdRates code).
Proof.
  unfold through_usd. case_bool_decide; [done|].
  apply oblivious_bind; [apply oblivious_prop | done].
Qed.

Lemma oblivious_bulk_loop c f entries acc :
  store_oblivious (bulk_loop c f entries acc).
Proof.
  revert acc. induction entries as [|[k v] rest IH]; intros acc; [done|].
  simpl. apply oblivious_bind; [apply oblivious_prop|]. intros known.
  destruct (negb _); [apply IH|].
  apply oblivious_bind; [unfold parseFloat_any; by destruct (unprintable v)|].
  intros a. destruct (isNaN _); [apply IH|].
  apply oblivious_bind; [apply oblivious_through_usd|]. intros r. apply IH.
Qed.

Lemma oblivious_respond code (m : M body) e s h :
  store_oblivious m →
  respond code m e (with_store h s)
  = ((respond code m e s).1, with_store h (respond code m e s).2).
Proof.
  intros Hm. unfold respond. rewrite Hm.
  by destruct (m e s) as [[err|b] s1].
Qed.

Lemma handle_cache_side_oblivious r e s h :
  is_history r = false →
  handle r e (with_store h s)
  = ((handle r e s).1, with_store h (handle r e s).2).
Proof.
  destruct r; try done; intros _; cbn [handle]; apply oblivious_respond.
  - apply oblivious_bind; [apply oblivious_updateCache|]. intros _.
    by apply oblivious_bind.
  - apply oblivious_bind; [apply oblivious_updateCache|]. intros _.
    by apply oblivious_bind.
  - cbv zeta. destruct (isNaN _); [done|].
    apply oblivious_bind; [apply oblivious_updateCache|]. intros _.
    apply oblivious_bind; [done|]. intros c.
    apply oblivious_bind; [apply oblivious_prop|]. intros kf.
    apply oblivious_bind; [apply oblivious_prop|]. intros kt.
    destruct (_ || _); [done|].
    apply oblivious_bind; [apply oblivious_through_usd|]. intros x.
    apply oblivious_bind; [apply oblivious_through_usd|]. done.
  - destruct (from req) as [source|], (amounts req) as [entries|]; try done.
    case_bool_decide; [done|].
    apply oblivious_bind; [apply oblivious_updateCache|]. intros _.
    apply oblivious_bind; [done|]. intros c.
    apply oblivious_bind; [apply oblivious_prop|]. intros known.
    destruct (negb _); [done|].
    apply oblivious_bind; [apply oblivious_through_usd|]. intros x.
    apply oblivious_bind; [apply oblivious_bulk_loop|]. done.
Qed.

Lemma handle_history_side_oblivious r e s c rq :
  is_history r = true →
  handle r e (with_cache c rq s)
  = ((handle r e s).1, with_cache c rq (handle r e s).2).
Proof.
  destruct r; try done; intros _; cbn [handle]; try done.
  rewrite !post_history_cases. cbv zeta.
  change (conversionHistoryStore (with_cache c rq s))
    with (conversionHistoryStore s).
  by destruct (read _ _).
Qed.

Lemma serve_cache_side_oblivious arrivals s h :
  Forall (λ a, is_history a.1 = false) arrivals →
  serve arrivals (with_store h s)
  = ((serve arrivals s).1, with_store h (serve arrivals s).2).
Proof.
  revert s. induction arrivals as [|[r e] rest IH]; intros s Hall; [done|].
  apply Forall_cons in Hall as [Hr Hall]. simpl in Hr.
  cbn [serve]. rewrite handle_cache_side_oblivious by done.
  destruct (handle r e s) as [resp s1]. simpl. rewrite IH by done.
  by destruct (serve rest s1).
Qed.

Lemma serve_history_side_oblivious arrivals s c rq :
  Forall (λ a, is_history a.1 = true) arrivals →
  serve arrivals (with_cache c rq s)
  = ((serve arrivals s).1, with_cache c rq (serve arrivals s).2).
Proof.
  revert s. induction arrivals as [|[r e] rest IH]; intros s Hall; [done|].
  apply Forall_cons in Hall as [Hr Hall]. simpl in Hr.
  cbn [serve]. rewrite handle_history_side_oblivious by done.
  destruct (handle r e s) as [resp s1]. simpl. rewrite IH by done.
  by destruct (serve rest s1).
Qed.

Lemma serve_cons r e rest s :
  (serve ((r, e) :: rest) s).2 = (serve rest (handle r e s).2).2.
Proof.
  cbn [serve]. destruct (handle r e s) as [resp s1]. simpl.
  by destruct (serve rest s1).
Qed.

(** [X5] The history and the cache do not meet.  After any requests, the
    history store is the one left by the history requests alone, and the cache
    and the requests sent to the provider are those left by the other requests
    alone. *)
Theorem history_and_cache_are_independent (arrivals : list (request * env))
  (s : state) :
  let after := (serve arrivals s).2 in
  let history_only :=
    (serve (filter (λ a, is_history a.1 = true) arrivals) s).2 in
  let others_only :=
    (serve (filter (λ a, is_history a.1 = false) arrivals) s).2 in
  conversionHistoryStore after = conversionHistoryStore history_only
  ∧ currencyCache after = currencyCache others_only
  ∧ requests after = requests others_only.
Proof.
  cbv zeta. revert s. induction arrivals as [|[r e] rest IH]; intros s; [done|].
  rewrite serve_cons, !filter_cons. simpl.
  destruct (IH (handle r e s).2) as (IHh & IHc & IHr).
  rewrite IHh, IHc, IHr. clear IH IHh IHc IHr.
  destruct (is_history r) eqn:Hr.
  - rewrite decide_True, decide_False by done. rewrite serve_cons.
    split; [done|].
    destruct (handle_history_side r e s Hr) as [Hc Hrq].
    assert ((handle r e s).2
            = with_store (conversionHistoryStore (handle r e s).2) s) as ->.
    { destruct (handle r e s) as [resp [c h rq]], s. simpl in *. by subst. }
    rewrite serve_cache_side_oblivious; [done|].
    apply Forall_forall. by intros a [? _]%list_elem_of_filter.
  - rewrite decide_False, decide_True by done. rewrite serve_cons.
    split; [|done].
    pose proof (handle_cache_side_store r e s Hr) as Hh.
    assert ((handle r e s).2
            = with_cache (currencyCache (handle r e s).2)
                (requests (handle r e s).2) s) as ->.
    { destruct (handle r e s) as [resp [c h rq]], s. simpl in *. by subst. }
    rewrite serve_history_side_oblivious; [done|].
    apply Forall_forall. by intros a [? _]%list_elem_of_filter.
Qed.

End TrafficFacts.

(* ===================================================================== *)
(** ** The cache over several requests *)
(* ===================================================================== *)

Module CacheTraffic.
Import JS Server Scenario Traffic CacheFacts HistoryFacts Invariants
  TrafficFacts.


(** A call on a snapshot of the asked base that is not expired: nothing is
    sent, nothing changes, whatever the provider would answer. *)
Lemma updateCache_hit e s cur rs b t0 :
  currencyCache s = {| currencies := Some cur; rates := Some rs;
                       baseCurrency := Some b; lastUpdated := Some t0 |} →
  t0 ≠ 0 → now e - t0 ≤ CACHE_EXPIRATION →
  updateCache b e s = (inr tt, s).
Proof.
  intros Hc Ht0 Hage. rewrite updateCache_cases. cbv zeta. rewrite Hc.
  unfold stale. simpl.
  rewrite (proj2 (Z.eqb_neq _ _) Ht0), (proj2 (Z.ltb_ge _ _) Hage). simpl.
  by rewrite bool_decide_eq_true_2.
Qed.

(** The outcome of [updateCache] depends on the state through the cache
    only. *)
Lemma updateCache_cache_only base e s s' :
  currencyCache s = currencyCache s' →
  (updateCache base e s).1 = (updateCache base e s').1
  ∧ currencyCache (updateCache base e s).2 = currencyCache (updateCache base e s').2
  ∧ sent_by s (updateCache base e s).2 = sent_by s' (updateCache base e s').2.
Proof.
  intros Hc. rewrite !updateCache_cases. cbv zeta. rewrite <- Hc.
  destruct (stale _ _).
  - destruct (currency_response _), (rates_response _ _); simpl;
      by erewrite !sent_by_app.
  - destruct (bool_decide _); simpl.
    + unfold sent_by. by rewrite !drop_all.
    + destruct (rates_response _ _); simpl; by erewrite !sent_by_app.
Qed.

Lemma handle_hit r e s cur rs t0 :
  currencyCache s = {| currencies := Some cur; rates := Some rs;
                       baseCurrency := Some "USD"; lastUpdated := Some t0 |} →
  t0 ≠ 0 → now e - t0 ≤ CACHE_EXPIRATION →
  asks_usd r = true →
  currencyCache (handle r e s).2 = currencyCache s
  ∧ requests (handle r e s).2 = requests s
  ∧ cached_answer (currencyCache s) r (handle r e s).1.
Proof.
  intros Hc Ht0 Hage Hr.
  pose proof (updateCache_hit e s cur rs "USD" t0 Hc Ht0 Hage) as Hhit.
  destruct r; cbn [handle cached_answer].
  - unfold get_currencies, respond, mbind, M_bind, bind. by rewrite Hhit.
  - assert (default "USD" base = "USD") as Hb.
    { destruct base as [b|]; [|done]. simpl in *.
      by apply bool_decide_eq_true in Hr. }
    unfold get_rates, respond, mbind, M_bind, bind. by rewrite Hb, Hhit.
  - rewrite convert_state, Hhit. by destruct (isNaN _).
  - by destruct (convert_bulk_state req e s) as [-> | ->]; rewrite ?Hhit.
  - by destruct (post_history_cache user conv e s) as [-> ->].
  - done.
  - done.
Qed.

(** [X6] While the snapshot for USD is not older than the expiration window
    (its age may be the window itself), the requests that ask for USD are
    served from the cache: nothing is sent to the provider, whose answers do
    not matter, the cache stays as it is, and the lists of currencies and of
    rates returned are the cached ones. *)
Theorem fresh_cache_needs_no_provider (arrivals : list (request * env))
  (s : state) (cur : currency_list) (rs : rate_table) (t0 : Z) :
  currencyCache s = {| currencies := Some cur; rates := Some rs;
                       baseCurrency := Some "USD"; lastUpdated := Some t0 |} →
  t0 ≠ 0 →
  Forall (λ a, asks_usd a.1 = true ∧ now a.2 - t0 ≤ CACHE_EXPIRATION) arrivals →
  currencyCache (serve arrivals s).2 = currencyCache s
  ∧ requests (serve arrivals s).2 = requests s
  ∧ Forall2 (cached_answer (currencyCache s)) arrivals.*1 (serve arrivals s).1.
Proof.
  intros Hc Ht0. revert s Hc.
  induction arrivals as [|[r e] rest IH]; intros s Hc Hall.
  { simpl. by repeat split. }
  apply Forall_cons in Hall as [[Hr Hage] Hall]. simpl in Hr, Hage.
  destruct (handle_hit r e s cur rs t0 Hc Ht0 Hage Hr) as (Hc1 & Hrq1 & Hans).
  cbn [serve]. destruct (handle r e s) as [resp s1]. simpl in *.
  destruct (IH s1) as (Hc2 & Hrq2 & Hanss); [congruence | done |].
  destruct (serve rest s1) as [resps s2]. simpl in *.
  split; [congruence|]. split; [congruence|].
  constructor; [done|]. by rewrite <- Hc1.
Qed.

(** With the provider down, on the snapshot of time 1000: a listing, a
    conversion, and a rate listing at the last millisecond of the window. *)
Lemma fresh_cache_needs_no_provider_witness :
  let arrivals :=
    [ (GetCurrencies, at_time failing_provider 2000);
      (Convert "USD" "EUR" "2", at_time failing_provider 3000);
      (GetRates None, at_time failing_provider 301000) ] in
  currencyCache (serve arrivals sample_state).2 = sample_cache
  ∧ requests (serve arrivals sample_state).2 = []
  ∧ Forall2 (cached_answer sample_cache) arrivals.*1
      (serve arrivals sample_state).1.
Proof.
  apply (fresh_cache_needs_no_provider _ sample_state sample_currencies
           sample_rates 1000).
  - reflexivity.
  - discriminate.
  - repeat constructor; simpl; unfold CACHE_EXPIRATION; lia.
Defined.


Lemma refreshes_cons p c calls s :
  refreshes p (c :: calls) s
  = refreshes p calls (updateCache c.1 {| upstream := p; now := c.2 |} s).2.
Proof. done. Qed.

(** [X7] A refresh of the rates alone renews the timestamp of the whole
    snapshot.  So when each call asks for another base than the one before it,
    no later than the expiration window after it, only rates are ever
    requested, one table per call, and the currency list stays the one fetched
    at the start, however long ago that was. *)
Theorem currency_list_outlives_window (p : provider)
  (calls : list (string * Z)) (s : state) (cur : currency_list)
  (rs : rate_table) (b : string) (t : Z) :
  currencyCache s = {| currencies := Some cur; rates := Some rs;
                       baseCurrency := Some b; lastUpdated := Some t |} →
  t ≠ 0 →
  base_changes b t calls →
  Forall (λ c, is_Some (rates_response p c.1)) calls →
  let s' := refreshes p calls s in
  currencies (currencyCache s') = Some cur
  ∧ sent_by s s' = (λ c, FetchRates c.1) <$> calls
  ∧ baseCurrency (currencyCache s') = last (b :: calls.*1)
  ∧ lastUpdated (currencyCache s') = last (t :: calls.*2).
Proof.
  intros Hc Ht Hch Hall. cbv zeta.
  assert (currencies (currencyCache (refreshes p calls s)) = Some cur
          ∧ requests (refreshes p calls s)
            = requests s ++ ((λ c, FetchRates c.1) <$> calls)
          ∧ baseCurrency (currencyCache (refreshes p calls s))
            = last (b :: calls.*1)
          ∧ lastUpdated (currencyCache (refreshes p calls s))
            = last (t :: calls.*2)) as (H1 & H2 & H3 & H4).
  { revert s rs b t Hc Ht Hch.
    induction calls as [|[b' t'] rest IH]; intros s rs b t Hc Ht Hch.
    { simpl. rewrite Hc, app_nil_r. by repeat split. }
    apply Forall_cons in Hall as [[rs' Hrs'] Hall].
    destruct Hch as (Hb & Ht' & Hage & Hch). simpl in Hb, Ht', Hage, Hch, Hrs'.
    rewrite refreshes_cons, updateCache_cases. cbv zeta. simpl.
    rewrite Hc. unfold stale. simpl.
    rewrite (proj2 (Z.eqb_neq _ _) Ht), (proj2 (Z.ltb_ge _ _) Hage). simpl.
    rewrite bool_decide_eq_false_2 by congruence. rewrite Hrs'.
    match goal with |- context [refreshes p rest ?s1] =>
      destruct (IH Hall s1 rs' b' t') as (H1 & H2 & H3 & H4); [done..|] end.
    rewrite H1, H2, H3, H4. simpl. rewrite <- app_assoc.
    by repeat split. }
  repeat split; try done. by apply sent_by_app.
Qed.

(** Three changes of base, 249 seconds and 250 seconds apart: at time
    750000 the currency list of time 1000 is still the cached one. *)
Lemma currency_list_outlives_window_witness :
  let calls := [("EUR", 250000); ("USD", 500000); ("EUR", 750000)] in
  let s' := refreshes sample_provider calls sample_state in
  currencies (currencyCache s') = Some sample_currencies
  ∧ sent_by sample_state s'
    = [FetchRates "EUR"; FetchRates "USD"; FetchRates "EUR"]
  ∧ baseCurrency (currencyCache s') = Some "EUR"
  ∧ lastUpdated (currencyCache s') = Some 750000.
Proof.
  apply (currency_list_outlives_window sample_provider
           [("EUR", 250000); ("USD", 500000); ("EUR", 750000)]
           sample_state sample_currencies sample_rates "USD" 1000).
  - reflexivity.
  - discriminate.
  - repeat split; simpl; unfold CACHE_EXPIRATION; (discriminate || lia).
  - repeat constructor; by eexists.
Defined.

(** [X8] A failed refresh is not remembered.  The call that follows a failed
    one, for any base and at any time, has the outcome, leaves the cache and
    sends the requests it would have had, left and sent if the failed call had
    not been made. *)
Theorem failed_refresh_is_forgotten (e1 e2 : env) (s s1 : state)
  (base base' : string) (err : error) :
  updateCache base e1 s = (inl err, s1) →
  (updateCache base' e2 s1).1 = (updateCache base' e2 s).1
  ∧ currencyCache (updateCache base' e2 s1).2
    = currencyCache (updateCache base' e2 s).2
  ∧ sent_by s1 (updateCache base' e2 s1).2
    = sent_by s (updateCache base' e2 s).2.
Proof.
  intros Hfail. apply updateCache_error in Hfail as (Hc & _ & _).
  by apply updateCache_cache_only.
Qed.

(** The provider is down at time 1000000 and back at 1000500. *)
Lemma failed_refresh_is_forgotten_witness :
  let s1 :=
    (updateCache "USD" (at_time failing_provider 1000000) sample_state).2 in
  (updateCache "USD" (at_time sample_provider 1000500) s1).1 = inr tt
  ∧ currencyCache (updateCache "USD" (at_time sample_provider 1000500) s1).2
    = {| currencies := Some sample_currencies; rates := Some sample_rates;
         baseCurrency := Some "USD"; lastUpdated := Some 1000500 |}
  ∧ sent_by s1 (updateCache "USD" (at_time sample_provider 1000500) s1).2
    = [FetchCurrencies; FetchRates "USD"].
Proof.
  cbv zeta.
  destruct (failed_refresh_is_forgotten (at_time failing_provider 1000000)
              (at_time sample_provider 1000500) sample_state
              (updateCache "USD" (at_time failing_provider 1000000)
                 sample_state).2
              "USD" "USD" FailedExchangeRates) as (-> & -> & ->).
  - reflexivity.
  - by repeat split.
Defined.


(** [X9] Listing the currencies on a snapshot that is not expired but has
    another base than USD asks the provider for the rates of USD, and for
    nothing else.  If that request fails, the listing fails with the error of
    the rates, although the list is in the cache, which stays as it was; if it
    succeeds, the cached list is returned and the snapshot becomes one for
    USD. *)
Theorem get_currencies_asks_for_usd_rates (e : env) (s : state)
  (cur : currency_list) (rs : rate_table) (b : string) (t0 : Z) :
  currencyCache s = {| currencies := Some cur; rates := Some rs;
                       baseCurrency := Some b; lastUpdated := Some t0 |} →
  t0 ≠ 0 → now e - t0 ≤ CACHE_EXPIRATION →
  b ≠ "USD" →
  sent_by s (get_currencies e s).2 = [FetchRates "USD"]
  ∧ (rates_response (upstream e) "USD" = None →
     (get_currencies e s).1
     = {| status := 500; payload := ErrorBody FailedExchangeRates |}
     ∧ currencyCache (get_currencies e s).2 = currencyCache s)
  ∧ (∀ rs', rates_response (upstream e) "USD" = Some rs' →
       (get_currencies e s).1
       = {| status := 200; payload := CurrenciesBody (Some cur) |}
       ∧ currencyCache (get_currencies e s).2
         = {| currencies := Some cur; rates := Some rs';
              baseCurrency := Some "USD"; lastUpdated := Some (now e) |}).
Proof.
  intros Hc Ht0 Hage Hb.
  unfold get_currencies, respond, mbind, M_bind, bind.
  rewrite updateCache_cases. cbv zeta. rewrite Hc. unfold stale. simpl.
  rewrite (proj2 (Z.eqb_neq _ _) Ht0), (proj2 (Z.ltb_ge _ _) Hage). simpl.
  rewrite bool_decide_eq_false_2 by congruence.
  destruct (rates_response (upstream e) "USD") as [rs'|]; simpl.
  - split; [by apply sent_by_app|]. split; [done|]. by intros ? [= <-].
  - split; [by apply sent_by_app|]. split; done.
Qed.

(** The snapshot is for EUR, taken at time 2000, and the provider is down
    at time 3000. *)
Lemma get_currencies_asks_for_usd_rates_witness :
  let s := (updateCache "EUR" (at_time sample_provider 2000) sample_state).2 in
  (get_currencies (at_time failing_provider 3000) s).1
  = {| status := 500; payload := ErrorBody FailedExchangeRates |}
  ∧ currencyCache (get_currencies (at_time failing_provider 3000) s).2
    = currencyCache s.
Proof.
  cbv zeta.
  apply (get_currencies_asks_for_usd_rates (at_time failing_provider 3000)
           (updateCache "EUR" (at_time sample_provider 2000) sample_state).2
           sample_currencies sample_rates_eur "EUR" 2000).
  - reflexivity.
  - discriminate.
  - simpl. unfold CACHE_EXPIRATION. lia.
  - discriminate.
  - reflexivity.
Defined.


(** [X10] A successful listing of the rates answers for the base that was
    asked, USD when none was: the [base] of the response is that base, its
    [rates] are the rates the cache holds afterwards under that base, and, if
    anything was requested from the provider, they are the provider's answer
    for that base. *)
Theorem get_rates_answers_asked_base (e : env) (s : state)
  (base : option string) :
  whole (currencyCache s) →
  status (get_rates base e s).1 = 200 →
  ∃ rs,
    (get_rates base e s).1
    = {| status := 200;
         payload := RatesBody (Some (default "USD" base)) (Some rs) |}
    ∧ currencyCache (get_rates base e s).2
      = currencyCache (updateCache (default "USD" base) e s).2
    ∧ rates (currencyCache (get_rates base e s).2) = Some rs
    ∧ baseCurrency (currencyCache (get_rates base e s).2)
      = Some (default "USD" base)
    ∧ (sent_by s (get_rates base e s).2 ≠ [] →
       rates_response (upstream e) (default "USD" base) = Some rs).
Proof.
  intros Hw. set (b := default "USD" base).
  unfold get_rates, respond, mbind, M_bind, bind. fold b.
  destruct (updateCache b e s) as [[err|[]] s1] eqn:Hup; [done|]. simpl.
  intros _.
  pose proof (updateCache_ok _ _ _ _ Hup) as (_ & Hbase & _).
  pose proof (updateCache_whole e s b Hw) as Hw1. rewrite Hup in Hw1.
  simpl in Hw1.
  destruct Hw1 as [Hw1|(cur & rs & b1 & u & Hw1)];
    [by rewrite Hw1 in Hbase|].
  exists rs. rewrite Hw1 in *. simpl in *. injection Hbase as ->.
  do 4 (split; [done|]).
  revert Hup. rewrite updateCache_cases. cbv zeta.
  destruct (stale _ _).
  - destruct (currency_response _), (rates_response _ _);
      try destruct (currencies_settle_first _); intros [= <-]; simpl in *.
    by injection Hw1 as _ <-.
  - destruct (bool_decide _).
    + intros [= <-]. unfold sent_by. by rewrite drop_all.
    + destruct (rates_response _ _); intros [= <-]; simpl in *.
      by injection Hw1 as _ <-.
Qed.

(** The rates for EUR asked on the snapshot for USD. *)
Lemma get_rates_answers_asked_base_witness :
  ∃ rs,
    (get_rates (Some "EUR") (at_time sample_provider 2000) sample_state).1
    = {| status := 200; payload := RatesBody (Some "EUR") (Some rs) |}
    ∧ rates_response sample_provider "EUR" = Some rs.
Proof.
  destruct (get_rates_answers_asked_base (at_time sample_provider 2000)
              sample_state (Some "EUR"))
    as (rs & Hresp & _ & _ & _ & Hsent).
  - right. by eexists _, _, _, _.
  - reflexivity.
  - exists rs. split; [exact Hresp|]. apply Hsent. discriminate.
Defined.

End CacheTraffic.

(* ===================================================================== *)
(** ** Conversions: one amount and another, one key and many *)
(* ===================================================================== *)

Module ConversionFacts.
Import JS Server Scenario Traffic Binary64 CacheFacts ConvertFacts BulkFacts
  Invariants TrafficFacts.



Lemma SFmul_one_l (s : bool) (m : positive) (e : Z) :
  bounded prec emax m e = true →
  SFmul prec emax (S754_finite false 4503599627370496 (-52)) (S754_finite s m e)
  = S754_finite s m e.
Proof.
  unfold bounded, canonical_mantissa. intros [Hc He]%andb_prop.
  apply Z.eqb_eq in Hc.
  unfold SFmul. rewrite xorb_false_l.
  let t := eval lazy beta iota delta [Pos.mul] in (4503599627370496 * m)%positive in
  change (4503599627370496 * m)%positive with t.
  unfold binary_round_aux, shr_fexp.
  cbn [Zdigits2 digits2_pos].
  repeat rewrite Pos2Z.inj_succ.
  match goal with |- context [fexp prec emax ?x] =>
    replace x with (Z.pos (digits2_pos m) + e) by lia end.
  rewrite Hc.
  replace (e - (-52 + e)) with 52 by lia.
  cbn [shr shr_record_of_loc SpecFloat.iter_pos shr_1 orb].
  cbn [shr_m loc_of_shr_record round_nearest_even Zdigits2].
  replace (-52 + e + 52) with e by lia.
  rewrite Hc, Z.sub_diag. cbn [shr shr_m shr_record_of_loc].
  by rewrite He.
Qed.

Lemma mul_one_l (x : float) : (1 * x)%float = x.
Proof.
  apply Prim2SF_inj. rewrite mul_spec.
  change (Prim2SF 1) with (S754_finite false 4503599627370496 (-52)).
  pose proof (Prim2SF_valid x) as Hv.
  destruct (Prim2SF x) as [s|s| |s m e]; simpl in Hv.
  - done.
  - done.
  - reflexivity.
  - by apply SFmul_one_l.
Qed.

(** [X11] The rate of a conversion does not depend on the amount: two
    conversions between the same valid codes on the same state return the
    same rate, and each result is its amount times that rate.  In particular
    the result for an amount is the amount times the rate quoted for 1. *)
Theorem rate_does_not_depend_on_amount (e : env) (s s1 : state)
  (from to amount amount' : string) :
  isNaN (parseFloat amount) = false →
  isNaN (parseFloat amount') = false →
  whole (currencyCache s) →
  updateCache "USD" e s = (inr tt, s1) →
  valid_code (currencyCache s1) from →
  valid_code (currencyCache s1) to →
  ∃ r,
    convert from to amount e s
    = ({| status := 200;
          payload := ConversionBody from to (parseFloat amount) r
                       (parseFloat amount * r) |}, s1)
    ∧ convert from to amount' e s
      = ({| status := 200;
            payload := ConversionBody from to (parseFloat amount') r
                         (parseFloat amount' * r) |}, s1).
Proof.
  intros Hnan Hnan' Hw Hup Hfrom Hto.
  destruct (refreshed_rates _ _ _ _ Hw Hup) as [rs Hrs].
  eexists. split.
  - by apply (convert_run e s s1 from to amount rs).
  - by apply (convert_run e s s1 from to amount' rs).
Qed.

(** 2.5 EUR and 1 EUR to JPY. *)
Lemma rate_does_not_depend_on_amount_witness :
  ∃ r s1,
    convert "EUR" "JPY" "2.5" (at_time sample_provider 1000) initial_state
    = ({| status := 200;
          payload := ConversionBody "EUR" "JPY" (parseFloat "2.5") r
                       (parseFloat "2.5" * r) |}, s1)
    ∧ convert "EUR" "JPY" "1" (at_time sample_provider 1000) initial_state
      = ({| status := 200;
            payload := ConversionBody "EUR" "JPY" (parseFloat "1") r
                         (parseFloat "1" * r) |}, s1).
Proof.
  destruct (rate_does_not_depend_on_amount (at_time sample_provider 1000)
              initial_state
              (updateCache "USD" (at_time sample_provider 1000) initial_state).2
              "EUR" "JPY" "2.5" "1") as [r Hr].
  - reflexivity.
  - reflexivity.
  - by left.
  - reflexivity.
  - exists sample_currencies. split; [reflexivity|]. by eexists.
  - exists sample_currencies. split; [reflexivity|]. by eexists.
  - by exists r, (updateCache "USD" (at_time sample_provider 1000)
                    initial_state).2.
Defined.


(** [X12] Conversions from and to USD are not rounded twice: from USD to
    another valid code the rate returned is the rate of the table itself, and
    from that code to USD it is the quotient of 1 by it; the multiplication by
    1 of the pivot changes neither. *)
Theorem quotes_against_usd_are_exact (e : env) (s s1 : state)
  (X amount : string) (rs : rate_table) :
  isNaN (parseFloat amount) = false →
  updateCache "USD" e s = (inr tt, s1) →
  rates (currencyCache s1) = Some rs →
  valid_code (currencyCache s1) "USD" →
  valid_code (currencyCache s1) X →
  X ≠ "USD" →
  let a := parseFloat amount in
  let x := to_number (rs !! X) in
  convert "USD" X amount e s
  = ({| status := 200; payload := ConversionBody "USD" X a x (a * x) |}, s1)
  ∧ convert X "USD" amount e s
    = ({| status := 200;
          payload := ConversionBody X "USD" a (1 / x) (a * (1 / x)) |}, s1).
Proof.
  intros Hnan Hup Hrs Husd HX Hne. cbv zeta. split.
  - rewrite (convert_run e s s1 "USD" X amount rs) by done. cbv zeta.
    rewrite (bool_decide_eq_true_2 ("USD" = "USD")),
      (bool_decide_eq_false_2 (X = "USD")) by done.
    by rewrite mul_one_l.
  - rewrite (convert_run e s s1 X "USD" amount rs) by done. cbv zeta.
    rewrite (bool_decide_eq_true_2 ("USD" = "USD")),
      (bool_decide_eq_false_2 (X = "USD")) by done.
    by rewrite mul_one_r.
Qed.

(** USD to EUR and back, at the rate 49. *)
Lemma quotes_against_usd_are_exact_witness :
  ∃ s1,
    convert "USD" "EUR" "10" (at_time sample_provider 1000) initial_state
    = ({| status := 200; payload := ConversionBody "USD" "EUR" 10 49 490 |}, s1)
    ∧ convert "EUR" "USD" "10" (at_time sample_provider 1000) initial_state
      = ({| status := 200;
            payload := ConversionBody "EUR" "USD" 10 (1 / 49) (10 * (1 / 49)) |},
         s1).
Proof.
  exists (updateCache "USD" (at_time sample_provider 1000) initial_state).2.
  apply (quotes_against_usd_are_exact (at_time sample_provider 1000)
           initial_state _ "EUR" "10" sample_rates).
  - reflexivity.
  - reflexivity.
  - reflexivity.
  - exists sample_currencies. split; [reflexivity|]. by eexists.
  - exists sample_currencies. split; [reflexivity|]. by eexists.
  - discriminate.
Defined.


(** [X13] A bulk conversion agrees, key by key, with the single conversions
    from the same source.  A code passes the validity test of both routes
    when [currencies[code]] is truthy: it is a key of the currency list or a
    property name of [Object.prototype].  For a source that passes it and a
    key of [amounts] other than [__proto__], with a string amount, when the
    amounts of the request convert to strings, the entry of the results
    carries the amount, the rate and the result the single
    conversion returns, or the error it fails with.  The one exception is a
    key that does not pass the test with an amount that does not parse: the
    single conversion reports the amount, the bulk entry the code. *)
Theorem bulk_agrees_with_single (e : env) (s s1 : state)
  (source k amount : string) (entries : list (string * json_value)) :
  source ≠ "" →
  NoDup entries.*1 →
  whole (currencyCache s) →
  updateCache "USD" e s = (inr tt, s1) →
  listed (currencyCache s1) source →
  (k, JString amount) ∈ entries →
  k ≠ "__proto__" →
  printable entries →
  ∃ results,
    convert_bulk {| from := Some source; amounts := Some entries |} e s
    = ({| status := 200; payload := BulkBody source results |}, s1)
    ∧ (listed (currencyCache s1) k → isNaN (parseFloat amount) = false →
       ∃ r, convert source k amount e s
            = ({| status := 200;
                  payload := ConversionBody source k (parseFloat amount) r
                               (parseFloat amount * r) |}, s1)
            ∧ results !! k
              = Some (Converted (parseFloat amount) r (parseFloat amount * r)))
    ∧ (listed (currencyCache s1) k → isNaN (parseFloat amount) = true →
       (convert source k amount e s).1
       = {| status := 400; payload := ErrorBody AmountMustBeNumber |}
       ∧ results !! k = Some (EntryError AmountMustBeNumber))
    ∧ (¬ listed (currencyCache s1) k → isNaN (parseFloat amount) = false →
       (convert source k amount e s).1
       = {| status := 400; payload := ErrorBody InvalidCurrencyCode |}
       ∧ results !! k = Some (EntryError InvalidCurrencyCode))
    ∧ (¬ listed (currencyCache s1) k → isNaN (parseFloat amount) = true →
       (convert source k amount e s).1
       = {| status := 400; payload := ErrorBody AmountMustBeNumber |}
       ∧ results !! k = Some (EntryError InvalidCurrencyCode)).
Proof.
  intros Hne Hnd Hw Hup Hsrc Hin Hproto Hprint.
  pose proof (updateCache_ok _ _ _ _ Hup) as ([cur Hcur] & _ & _).
  destruct (refreshed_rates _ _ _ _ Hw Hup) as [rs Hrs].
  pose proof (λ c, listed_truthy (currencyCache s1) c cur Hcur) as Hlisted.
  assert (∀ c, ¬ listed (currencyCache s1) c → truthy (read cur c) = false)
    as Hunlisted.
  { intros c Hc. destruct (truthy (read cur c)) eqn:Ht; [|done].
    by apply Hlisted in Ht. }
  rewrite (convert_bulk_run e s s1 source entries cur rs) by done.
  rewrite (proj1 (Hlisted source) Hsrc). cbv zeta.
  eexists. split; [reflexivity|].
  rewrite (writes_lookup_entry _ _ _ k (JString amount)) by done.
  unfold entry_for. cbn [parseFloat_value].
  split; [|split; [|split]].
  - intros Hk Hnan. eexists. split.
    + by apply (convert_run_listed e s s1 source k amount rs).
    + by rewrite (proj1 (Hlisted k) Hk), Hnan.
  - intros Hk Hnan. split.
    + rewrite convert_cases. cbv zeta. by rewrite Hnan.
    + by rewrite (proj1 (Hlisted k) Hk), Hnan.
  - intros Hk Hnan. split.
    + rewrite convert_cases. cbv zeta. rewrite Hnan, Hup, Hcur.
      rewrite (Hunlisted k Hk). by rewrite orb_true_r.
    + by rewrite (Hunlisted k Hk).
  - intros Hk Hnan. split.
    + rewrite convert_cases. cbv zeta. by rewrite Hnan.
    + by rewrite (Hunlisted k Hk).
Qed.

(** The unknown code ZZZ with the amount ["abc"]: the two routes differ.
    The name [constructor] with the amount ["abc"]: they agree. *)
Lemma bulk_agrees_with_single_witness :
  ∃ results s1,
    convert_bulk
      {| from := Some "USD";
         amounts := Some [("EUR", JString "10"); ("ZZZ", JString "abc");
                          ("constructor", JString "abc")] |}
      (at_time sample_provider 1000) initial_state
    = ({| status := 200; payload := BulkBody "USD" results |}, s1)
    ∧ (convert "USD" "ZZZ" "abc" (at_time sample_provider 1000)
         initial_state).1
      = {| status := 400; payload := ErrorBody AmountMustBeNumber |}
    ∧ results !! "ZZZ" = Some (EntryError InvalidCurrencyCode)
    ∧ (convert "USD" "constructor" "abc" (at_time sample_provider 1000)
         initial_state).1
      = {| status := 400; payload := ErrorBody AmountMustBeNumber |}
    ∧ results !! "constructor" = Some (EntryError AmountMustBeNumber).
Proof.
  set (entries := [("EUR", JString "10"); ("ZZZ", JString "abc");
                   ("constructor", JString "abc")]).
  set (s1 := (updateCache "USD" (at_time sample_provider 1000) initial_state).2).
  destruct (bulk_agrees_with_single (at_time sample_provider 1000)
              initial_state s1 "USD" "ZZZ" "abc" entries)
    as (results & Hout & _ & _ & _ & Hzzz).
  - discriminate.
  - compute_done.
  - by left.
  - reflexivity.
  - exists sample_currencies. split; reflexivity.
  - apply list_elem_of_further, list_elem_of_here.
  - discriminate.
  - repeat constructor.
  - destruct (bulk_agrees_with_single (at_time sample_provider 1000)
                initial_state s1 "USD" "constructor" "abc" entries)
      as (results' & Hout' & _ & Hctor & _).
    + discriminate.
    + compute_done.
    + by left.
    + reflexivity.
    + exists sample_currencies. split; reflexivity.
    + do 2 apply list_elem_of_further. apply list_elem_of_here.
    + discriminate.
    + repeat constructor.
    + rewrite Hout in Hout'. injection Hout' as <-.
      exists results, s1. split; [exact Hout|].
      destruct Hzzz as [Hz1 Hz2]; [|reflexivity|].
      { intros (cur & [= <-] & Hk). discriminate Hk. }
      destruct Hctor as [Hc1 Hc2]; [|reflexivity|].
      { exists sample_currencies. split; reflexivity. }
      repeat split; assumption.
Defined.


(** [X14] A bulk conversion costs at most one refresh, however many amounts
    it carries: it sends nothing, or the rate request for USD, or the currency
    and the rate requests for USD, and never touches the history.  A body
    without [from], with an empty [from] or without [amounts] is rejected
    before anything is sent, and the state is left as it was. *)
Theorem bulk_costs_one_refresh (req : bulk_request) (e : env) (s : state) :
  (from req = None ∨ from req = Some "" ∨ amounts req = None →
   convert_bulk req e s
   = ({| status := 400; payload := ErrorBody InvalidRequestFormat |}, s))
  ∧ (sent_by s (convert_bulk req e s).2 = []
     ∨ sent_by s (convert_bulk req e s).2 = [FetchRates "USD"]
     ∨ sent_by s (convert_bulk req e s).2 = [FetchCurrencies; FetchRates "USD"])
  ∧ conversionHistoryStore (convert_bulk req e s).2 = conversionHistoryStore s.
Proof.
  split; [apply convert_bulk_malformed|].
  destruct (convert_bulk_state req e s) as [-> | ->].
  - split; [|done]. left. unfold sent_by. by rewrite drop_all.
  - split; [|apply updateCache_store].
    rewrite updateCache_cases. cbv zeta.
    destruct (stale _ _).
    + right. right.
      by destruct (currency_response _), (rates_response _ _); simpl;
        apply sent_by_app.
    + destruct (bool_decide _); simpl.
      * left. unfold sent_by. by rewrite drop_all.
      * right. left. by destruct (rates_response _ _); simpl; apply sent_by_app.
Qed.

End ConversionFacts.

(* ===================================================================== *)
(** ** Interleaved refreshes: what every schedule keeps *)
(* ===================================================================== *)

Module InterleavingFacts.
Import JS Server Async Scenario Traffic Interleaving CacheFacts AsyncFacts.



Lemma populated_set_rates rs c : populated c → populated (set_rates rs c).
Proof. intros (cur & rs0 & b & u & ->). by exists cur, rs, b, u. Qed.

Lemma populated_set_base_and_time b t c :
  populated c → populated (set_base_and_time b t c).
Proof. intros (cur & rs & b0 & u & ->). by exists cur, rs, b, t. Qed.

Lemma well_formed_initial : well_formed initial.
Proof.
  split; [done|]. split; [|split].
  - intros [|i] c; [lia|]. by destruct i.
  - simpl. lia.
  - by intros b t target ?%elem_of_nil.
Qed.

Lemma in_flight_delete (p : pending) i (l : list pending) :
  p ∈ delete i l → p ∈ l.
Proof. apply list_elem_of_delete_inv. Qed.

Lemma well_formed_call base t w : well_formed w → well_formed (call base t w).
Proof.
  intros (H0 & Hpop & Hb & Hfl). unfold call.
  destruct (stale t (snapshot w)) eqn:Hst.
  - split; [done|]. split; [done|]. split; [done|]. simpl.
    intros b' t' target [Hin|Hin%list_elem_of_singleton]%elem_of_app; [eauto|done].
  - destruct (negb _); [|done].
    split; [done|]. split; [done|]. split; [done|]. simpl.
    assert (1 ≤ binding w)%nat as Hb1.
    { destruct (binding w) eqn:Hbw; [|lia].
      unfold snapshot in Hst. by rewrite Hbw, H0 in Hst. }
    intros b' t' target [Hin|Hin%list_elem_of_singleton]%elem_of_app.
    + eauto.
    + by injection Hin as _ _ ->.
Qed.

Lemma well_formed_settle i cur rs w w' :
  well_formed w → settle i cur rs w = Some w' → well_formed w'.
Proof.
  intros (H0 & Hpop & Hb & Hfl). unfold settle.
  destruct (in_flight w !! i) as [[base t|base t target]|] eqn:Hi; [| |done].
  - assert (well_formed {| heap := heap w; binding := binding w;
                           in_flight := delete i (in_flight w);
                           sent := sent w |}) as Hsame.
    { split; [done|]. split; [done|]. split; [done|]. simpl.
      intros b' t' target Hin%in_flight_delete. eauto. }
    destruct cur as [cur|], rs as [rs|]; intros [= <-]; try done.
    split; [|split; [|split]]; simpl.
    + rewrite lookup_app_l; [done|]. lia.
    + intros j c Hj Hj1.
      apply lookup_app_Some in Hj as [Hj|[_ Hj]]; [eauto|].
      apply list_lookup_singleton_Some in Hj as [_ <-]. by eexists _, _, _, _.
    + rewrite length_app. simpl. lia.
    + intros b' t' target Hin%in_flight_delete.
      destruct (Hfl _ _ _ Hin) as [Ht1 _]. split; [done|]. lia.
  - assert (1 ≤ target ∧ 1 ≤ binding w)%nat as [Ht1 Hb1].
    { apply (Hfl base t). apply list_elem_of_lookup. eauto. }
    destruct rs as [rs|]; intros [= <-].
    + split; [|split; [|split]]; simpl.
      * rewrite !list_lookup_alter_ne by lia. done.
      * intros j c Hj Hj1. rewrite list_lookup_alter in Hj.
        case_decide as Hjb.
        -- apply fmap_Some in Hj as (c1 & Hj & ->).
           apply populated_set_base_and_time.
           rewrite list_lookup_alter in Hj. case_decide.
           ++ apply fmap_Some in Hj as (c2 & Hj & ->).
              apply populated_set_rates. eauto.
           ++ eauto.
        -- rewrite list_lookup_alter in Hj. case_decide.
           ++ apply fmap_Some in Hj as (c2 & Hj & ->).
              apply populated_set_rates. eauto.
           ++ eauto.
      * by rewrite !length_alter.
      * intros b' t' target' Hin%in_flight_delete. eauto.
    + split; [done|]. split; [done|]. split; [done|]. simpl.
      intros b' t' target' Hin%in_flight_delete. eauto.
Qed.

Lemma well_formed_run evs w w' :
  well_formed w → run evs w = Some w' → well_formed w'.
Proof.
  revert w. induction evs as [|ev rest IH]; intros w Hw; simpl.
  { by intros [= <-]. }
  destruct (step ev w) as [w1|] eqn:Hstep; [|done].
  apply IH. destruct ev as [base t|i cur rs]; simpl in Hstep.
  - injection Hstep as <-. by apply well_formed_call.
  - by apply (well_formed_settle i cur rs w).
Qed.

Lemma well_formed_whole w : well_formed w → whole (snapshot w).
Proof.
  intros (H0 & Hpop & Hb & _). unfold snapshot.
  destruct (binding w) as [|n] eqn:Hbw.
  - rewrite H0. by left.
  - destruct (heap w !! S n) as [c|] eqn:Hc.
    + right. apply (Hpop (S n)); [done|lia].
    + by left.
Qed.

(** [X15] Whatever the interleaving of calls and answers, from the start
    of the process: the object the variable [currencyCache] refers to is the
    empty cache or has its four fields, never some of them; and while a call
    is suspended in the second branch, the snapshot has a currency list. *)
Theorem interleaved_snapshot_is_whole (evs : list event) (w : world) :
  run evs initial = Some w →
  whole (snapshot w)
  ∧ (binding w < length (heap w))%nat
  ∧ ∀ b t target, AwaitRates b t target ∈ in_flight w →
      is_Some (currencies (snapshot w)).
Proof.
  intros Hrun.
  pose proof (well_formed_run evs initial w well_formed_initial Hrun) as Hwf.
  split; [by apply well_formed_whole|].
  destruct Hwf as (H0 & Hpop & Hb & Hfl). split; [done|].
  intros b t target Hin. destruct (Hfl _ _ _ Hin) as [_ Hb1].
  unfold snapshot. destruct (heap w !! binding w) as [c|] eqn:Hc.
  - destruct (Hpop _ _ Hc Hb1) as (cur & rs & b0 & u & ->). by eexists.
  - apply lookup_ge_None in Hc. lia.
Qed.

(** The three overlapping refreshes. *)
Lemma interleaved_snapshot_is_whole_witness :
  ∃ w, run overlapping_refreshes initial = Some w ∧ whole (snapshot w).
Proof.
  destruct (run overlapping_refreshes initial) as [w|] eqn:Hrun;
    [|discriminate Hrun].
  exists w. split; [reflexivity|].
  by apply (interleaved_snapshot_is_whole overlapping_refreshes w).
Defined.

Lemma snapshot_rates_only_currencies base t rs target w :
  currencies
    (default empty_cache
       (alter (set_base_and_time base t) (binding w)
          (alter (set_rates rs) target (heap w)) !! binding w))
  = currencies (snapshot w).
Proof.
  unfold snapshot. rewrite list_lookup_alter_eq, list_lookup_alter.
  destruct (decide (target = binding w)) as [->|];
    by destruct (heap w !! binding w).
Qed.

(** [X16] Under interleaving, the currency list a reader sees changes in
    one way only: when the two answers of a full refresh arrive, and then the
    snapshot is, field by field, what that refresh fetched.  A call before its
    answers, a failed refresh and a refresh of the rates alone leave the
    list. *)
Theorem currency_list_changes_by_full_refresh_only (ev : event) (w w' : world) :
  step ev w = Some w' →
  currencies (snapshot w') ≠ currencies (snapshot w) →
  ∃ i cur rs base t,
    ev = Settle i (Some cur) (Some rs)
    ∧ in_flight w !! i = Some (AwaitAll base t)
    ∧ snapshot w' = {| currencies := Some cur; rates := Some rs;
                       baseCurrency := Some base; lastUpdated := Some t |}.
Proof.
  destruct ev as [base t|i cur rs]; simpl.
  - intros [= <-]. by rewrite call_snapshot.
  - unfold settle.
    destruct (in_flight w !! i) as [[base t|base t target]|] eqn:Hi; [| |done].
    + destruct cur as [cur|], rs as [rs|]; intros [= <-]; try done.
      intros _. exists i, cur, rs, base, t. do 2 (split; [done|]).
      unfold snapshot. simpl. by rewrite lookup_app_r, Nat.sub_diag.
    + destruct rs as [rs|]; intros [= <-]; [|done].
      unfold snapshot at 1. simpl.
      by rewrite snapshot_rates_only_currencies.
Qed.

(** The first refresh of the process. *)
Lemma currency_list_changes_witness :
  ∃ i cur rs base t,
    Settle 0 (Some sample_currencies) (Some sample_rates)
    = Settle i (Some cur) (Some rs)
    ∧ in_flight (call "USD" 1000 initial) !! i = Some (AwaitAll base t)
    ∧ cur = sample_currencies.
Proof.
  destruct (currency_list_changes_by_full_refresh_only
              (Settle 0 (Some sample_currencies) (Some sample_rates))
              (call "USD" 1000 initial)
              {| heap := [empty_cache; sample_cache]; binding := 1;
                 in_flight := []; sent := [FetchCurrencies; FetchRates "USD"] |})
    as (i & cur & rs & base & t & Hev & Hfl & Hsnap).
  - reflexivity.
  - discriminate.
  - exists i, cur, rs, base, t. split; [exact Hev|]. split; [exact Hfl|].
    by injection Hev as _ <- _.
Defined.

End InterleavingFacts.
